(** * Common::MemoryArena (src/common/memory_arena.cpp), Linux configuration

    A shallow embedding of the shared-memory arena and of its views, as the
    preprocessor leaves them when [__linux__] is defined.  The arena talks to
    the kernel through eight system calls; they are the fields of the class
    [Kernel], so every statement about the arena code holds for whatever the
    kernel answers.  [Module Linux] is one executable kernel, written after
    the manual pages of those calls, on which the code is run on concrete
    inputs.

    Conventions: [size_t], [void*] and [int] are [Z]; a [size_t] or pointer
    value lives in [0, 2^64) and wrap-around is written out where the code
    can reach it.  [Log_ErrorPrintf] calls have no effect on the state and
    are left out, and so is [SetPageProtection], which none of the facts
    below is about. *)

From Stdlib Require Import ZArith Lia Ascii.
From stdpp Require Import base gmap strings pretty list sorting.

Local Open Scope Z_scope.

(** ** Values of the C++ types *)

Definition SIZE_MAX : Z := 2 ^ 64 - 1.
Definition nullptr : Z := 0.
(** [(void* )-1], which is also [MAP_FAILED] of <sys/mman.h>. *)
Definition MAP_FAILED : Z := 2 ^ 64 - 1.

(** [static_cast<off64_t>(x)] of a [size_t]. *)
Definition to_off64 (x : Z) : Z := if x <? 2 ^ 63 then x else x - 2 ^ 64.
(** [static_cast<unsigned>(x)] of a [pid_t]. *)
Definition to_unsigned (x : Z) : Z := x mod 2 ^ 32.

(** Constants of <sys/mman.h> and <fcntl.h> (Linux, x86-64). *)
Definition PROT_NONE : Z := 0.
Definition PROT_READ : Z := 1.
Definition PROT_WRITE : Z := 2.
Definition PROT_EXEC : Z := 4.
Definition MAP_SHARED : Z := 1.
Definition MAP_PRIVATE : Z := 2.
Definition MAP_FIXED : Z := 16.
Definition MAP_ANON : Z := 32.
Definition O_RDONLY : Z := 0.
Definition O_RDWR : Z := 2.
Definition O_CREAT : Z := 64.
Definition O_EXCL : Z := 128.

(** ** The kernel interface

    Each call takes the kernel state and gives back its C return value and
    the next state.  [shm_bound] observes the shared-memory name space. *)

Class Kernel := {
  kstate : Type;
  sys_getpid : kstate → Z;
  sys_shm_open : string → Z → Z → kstate → Z * kstate;
  sys_shm_unlink : string → kstate → Z * kstate;
  sys_ftruncate64 : Z → Z → kstate → Z * kstate;
  sys_close : Z → kstate → Z * kstate;
  sys_mmap : Z → Z → Z → Z → Z → Z → kstate → Z * kstate;
  sys_munmap : Z → Z → kstate → Z * kstate;
  sys_msync : Z → Z → Z → kstate → Z * kstate;
  shm_bound : kstate → string → bool
}.

(** What the arena code relies on: [mmap] answers [MAP_FAILED] or an
    address, never null; unlinking a name leaves it unbound; resizing an
    object does not touch the name space. *)
Class KernelLaws (K : Kernel) : Prop := {
  mmap_nonnull : ∀ addr len prot flags fd off k,
    (sys_mmap addr len prot flags fd off k).1 ≠ nullptr;
  shm_unlink_unbinds : ∀ name k,
    shm_bound (sys_shm_unlink name k).2 name = false;
  ftruncate64_names : ∀ fd len k name,
    shm_bound (sys_ftruncate64 fd len k).2 name = shm_bound k name
}.

(** The system calls the process has made, with their return values. *)
Inductive syscall : Type :=
| ShmOpen (name : string) (oflag mode : Z) (ret : Z)
| ShmUnlink (name : string) (ret : Z)
| Ftruncate64 (fd length : Z) (ret : Z)
| Close (fd : Z) (ret : Z)
| Mmap (addr len prot flags fd off : Z) (ret : Z)
| Munmap (addr len : Z) (ret : Z)
| Msync (addr len flags : Z) (ret : Z).

(** ** The objects of the program *)

(** Modelled from the spec: memory_arena.h is not among the sources.  An
    arena holds the descriptor of its backing object and the count of live
    views ([m_shmem_fd], [m_num_views]); a view holds a non-owning pointer to
    its arena, its base address, offset, size and writable flag. *)
Record MemoryArena : Type := {
  m_shmem_fd : Z;
  m_num_views : Z
}.

Record View : Type := {
  m_parent : option nat;
  m_base_pointer : Z;
  m_arena_offset : Z;
  m_mapping_size : Z;
  m_writable : bool
}.

(** Does the character [c] occur in [s]? *)
Fixpoint mentions (c : ascii) (s : string) : bool :=
  match s with
  | EmptyString => false
  | String d s' => Ascii.eqb c d || mentions c s'
  end.

(** Is [e] a call of [close]? *)
Definition is_close (e : syscall) : bool :=
  match e with Close _ _ => true | _ => false end.

(** The arena [a] with its counter set to [n]. *)
Definition counting (a : MemoryArena) (n : Z) : MemoryArena :=
  {| m_shmem_fd := m_shmem_fd a; m_num_views := n |}.

Section Arena.
Context {K : Kernel}.

(** The process: the kernel, the arenas alive (by address) and the trace. *)
Record World : Type := {
  kern : kstate;
  heap : gmap nat MemoryArena;
  trace : list syscall
}.

(** Modelled from the spec: common/assert.h is not among the sources.
    [Panic] and a failed [Assert] are fatal: the process stops there.
    [Undefined] is a member access through a pointer to no live arena. *)
Inductive outcome (A : Type) : Type :=
| Returns (a : A) (w : World)
| Panics (msg : string) (w : World)
| Undefined.
Arguments Returns {A} a w.
Arguments Panics {A} msg w.
Arguments Undefined {A}.

Definition M (A : Type) : Type := World → outcome A.

Definition ret {A} (a : A) : M A := λ w, Returns a w.
Definition bind {A B} (m : M A) (f : A → M B) : M B :=
  λ w, match m w with
       | Returns a w' => f a w'
       | Panics msg w' => Panics msg w'
       | Undefined => Undefined
       end.
Definition Panic {A} (msg : string) : M A := λ w, Panics msg w.
Definition Assert (b : bool) (expr : string) : M unit :=
  if b then ret tt else Panic expr.

Notation "'let*' x ':=' c 'in' k" := (bind c (λ x, k))
  (at level 10, x name, c at level 100, k at level 200).
Notation "c ';;;' k" := (bind c (λ _, k))
  (at level 100, k at level 200, right associativity).

(** *** System calls, as the process sees them *)

(** The world once a system call has left the kernel in [k'] and has been
    recorded as [ev]. *)
Definition logged (w : World) (k' : kstate) (ev : syscall) : World :=
  {| kern := k'; heap := heap w; trace := trace w ++ [ev] |}.

Definition syscall_step (f : kstate → Z * kstate) (ev : Z → syscall) : M Z :=
  λ w, let r := f (kern w) in Returns r.1 (logged w r.2 (ev r.1)).

Definition getpid : M Z := λ w, Returns (sys_getpid (kern w)) w.
Definition shm_open (name : string) (oflag mode : Z) : M Z :=
  syscall_step (sys_shm_open name oflag mode) (ShmOpen name oflag mode).
Definition shm_unlink (name : string) : M Z :=
  syscall_step (sys_shm_unlink name) (ShmUnlink name).
Definition ftruncate64 (fd length : Z) : M Z :=
  syscall_step (sys_ftruncate64 fd length) (Ftruncate64 fd length).
Definition close (fd : Z) : M Z :=
  syscall_step (sys_close fd) (Close fd).
Definition mmap (addr len prot flags fd off : Z) : M Z :=
  syscall_step (sys_mmap addr len prot flags fd off) (Mmap addr len prot flags fd off).
(** On a 64-bit target [mmap64] is [mmap]. *)
Definition mmap64 := mmap.
Definition munmap (addr len : Z) : M Z :=
  syscall_step (sys_munmap addr len) (Munmap addr len).
Definition msync (addr len flags : Z) : M Z :=
  syscall_step (sys_msync addr len flags) (Msync addr len flags).

(** *** Members of the arena at address [this] *)

Definition load (this : nat) : M MemoryArena :=
  λ w, match heap w !! this with
       | Some a => Returns a w
       | None => Undefined
       end.

(** The world with the members of the arena at [this] set to [a]. *)
Definition with_arena (w : World) (this : nat) (a : MemoryArena) : World :=
  {| kern := kern w; heap := <[this := a]> (heap w); trace := trace w |}.

Definition store (this : nat) (a : MemoryArena) : M unit :=
  λ w, Returns tt (with_arena w this a).

Definition set_m_shmem_fd (this : nat) (fd : Z) : M unit :=
  let* a := load this in
  store this {| m_shmem_fd := fd; m_num_views := m_num_views a |}.

(** [m_num_views.fetch_add(n)] on a [std::atomic_size_t]: the previous value
    is returned and the sum wraps at 2^64. *)
Definition fetch_add (this : nat) (n : Z) : M Z :=
  let* a := load this in
  store this {| m_shmem_fd := m_shmem_fd a;
                m_num_views := (m_num_views a + n) mod 2 ^ 64 |} ;;;
  ret (m_num_views a).

Definition fetch_sub (this : nat) (n : Z) : M Z :=
  let* a := load this in
  store this {| m_shmem_fd := m_shmem_fd a;
                m_num_views := (m_num_views a - n) mod 2 ^ 64 |} ;;;
  ret (m_num_views a).

(** *** MemoryArena *)

(** Modelled from the spec: the default member initialisers are in
    memory_arena.h; a new arena has no backing descriptor and no live view. *)
Definition MemoryArena_ctor (this : nat) : M unit :=
  store this {| m_shmem_fd := -1; m_num_views := 0 |}.

(** [~MemoryArena]: the object at [this] is gone afterwards. *)
Definition MemoryArena_dtor (this : nat) : M unit :=
  let* a := load this in
  (if 0 <? m_shmem_fd a then close (m_shmem_fd a) ;;; ret tt else ret tt) ;;;
  λ w, Returns tt {| kern := kern w; heap := delete this (heap w); trace := trace w |}.

Definition FindBaseAddressForMapping (size : Z) : M Z :=
  let* base_address := mmap nullptr size PROT_NONE (Z.lor MAP_ANON MAP_PRIVATE) (-1) 0 in
  (if negb (base_address =? nullptr) then munmap base_address size ;;; ret tt
   else ret tt) ;;;
  if base_address =? nullptr then ret nullptr
  else ret base_address.

(** ["common_memory_arena_%zu_%u"] *)
Definition file_mapping_name (size pid : Z) : string :=
  "common_memory_arena_" +:+ pretty size +:+ "_" +:+ pretty (to_unsigned pid).

(** The [oflag] argument of [shm_open] in [Create]; the mode is [0600]. *)
Definition create_oflag (writable : bool) : Z :=
  Z.lor (Z.lor O_CREAT O_EXCL) (if writable then O_RDWR else O_RDONLY).

Definition Create (this : nat) (size : Z) (writable executable : bool) : M bool :=
  let* pid := getpid in
  let name := file_mapping_name size pid in
  let* fd := shm_open name (create_oflag writable) 384 in
  set_m_shmem_fd this fd ;;;
  if fd <? 0 then ret false
  else
    shm_unlink name ;;;
    let* r := ftruncate64 fd (to_off64 size) in
    if r <? 0 then ret false
    else ret true.

(** The locals [flags] and [prot] of [CreateViewPtr]. *)
Definition view_flags (fixed_address : Z) : Z :=
  if negb (fixed_address =? nullptr) then Z.lor MAP_SHARED MAP_FIXED else MAP_SHARED.
Definition view_prot (writable executable : bool) : Z :=
  Z.lor (Z.lor PROT_READ (if writable then PROT_WRITE else 0))
        (if executable then PROT_EXEC else 0).

Definition CreateViewPtr (this : nat) (offset size : Z) (writable executable : bool)
    (fixed_address : Z) : M Z :=
  let flags := view_flags fixed_address in
  let prot := view_prot writable executable in
  let* a := load this in
  let* base_pointer := mmap64 fixed_address size prot flags (m_shmem_fd a) (to_off64 offset) in
  if base_pointer =? MAP_FAILED then ret nullptr
  else
    fetch_add this 1 ;;;
    ret base_pointer.

Definition FlushViewPtr (this : nat) (address size : Z) : M bool :=
  let* r := msync address size 0 in
  ret (0 <=? r).

Definition ReleaseViewPtr (this : nat) (address size : Z) : M bool :=
  let* r := munmap address size in
  let result := 0 <=? r in
  if negb result then ret false
  else
    let* prev_count := fetch_sub this 1 in
    Assert (0 <? prev_count) "prev_count > 0" ;;;
    ret true.

(** *** MemoryArena::View *)

Definition View_ctor (parent : nat) (base_pointer arena_offset mapping_size : Z)
    (writable : bool) : View :=
  {| m_parent := Some parent; m_base_pointer := base_pointer;
     m_arena_offset := arena_offset; m_mapping_size := mapping_size;
     m_writable := writable |}.

(** [View(View&& view)]: the new view and what is left of [view].  The
    member initialiser list names four of the five members; [m_writable] of
    the new view is none of them and holds [uninit], whatever a member holds
    that no initialiser wrote. *)
Definition View_move (uninit : bool) (view : View) : View * View :=
  ({| m_parent := m_parent view; m_base_pointer := m_base_pointer view;
      m_arena_offset := m_arena_offset view; m_mapping_size := m_mapping_size view;
      m_writable := uninit |},
   {| m_parent := None; m_base_pointer := nullptr;
      m_arena_offset := 0; m_mapping_size := 0;
      m_writable := m_writable view |}).

Definition View_dtor (v : View) : M unit :=
  match m_parent v with
  | Some parent =>
      (if m_writable v then
         let* ok := FlushViewPtr parent (m_base_pointer v) (m_mapping_size v) in
         if negb ok then Panic "Failed to flush previously-created view" else ret tt
       else ret tt) ;;;
      let* ok := ReleaseViewPtr parent (m_base_pointer v) (m_mapping_size v) in
      if negb ok then Panic "Failed to unmap previously-created view" else ret tt
  | None => ret tt
  end.

(** [CreateView]: the returned [std::optional<View>] is built from the
    temporary [View(this, ...)] by the move constructor, and the temporary
    is then destroyed. *)
Definition CreateView (uninit : bool) (this : nat) (offset size : Z)
    (writable executable : bool) (fixed_address : Z) : M (option View) :=
  let* base_pointer := CreateViewPtr this offset size writable executable fixed_address in
  if base_pointer =? nullptr then ret None
  else
    let '(held, temporary) :=
      View_move uninit (View_ctor this base_pointer offset size writable) in
    View_dtor temporary ;;;
    ret (Some held).

(** *** Sequences of calls on one arena

    A client of the arena at [this] maps and unmaps views in some order;
    [run_ops] performs the calls one after the other and records whether
    each succeeded.  Calls from several threads are one such sequence, since
    the counter is only touched by [fetch_add] and [fetch_sub]. *)

Inductive op : Type :=
| OpCreateViewPtr (offset size : Z) (writable executable : bool) (fixed_address : Z)
| OpReleaseViewPtr (address size : Z).

Definition run_op (this : nat) (o : op) : M bool :=
  match o with
  | OpCreateViewPtr offset size writable executable fixed_address =>
      let* p := CreateViewPtr this offset size writable executable fixed_address in
      ret (negb (p =? nullptr))
  | OpReleaseViewPtr address size => ReleaseViewPtr this address size
  end.

Fixpoint run_ops (this : nat) (ops : list op) : M (list (op * bool)) :=
  match ops with
  | [] => ret []
  | o :: ops' =>
      let* b := run_op this o in
      let* rest := run_ops this ops' in
      ret ((o, b) :: rest)
  end.

Definition is_create (o : op) : bool :=
  match o with OpCreateViewPtr _ _ _ _ _ => true | OpReleaseViewPtr _ _ => false end.

(** The number of successful view creations, and of successful releases. *)
Definition created (log : list (op * bool)) : Z :=
  Z.of_nat (length (List.filter (λ r, is_create r.1 && r.2) log)).
Definition released (log : list (op * bool)) : Z :=
  Z.of_nat (length (List.filter (λ r, negb (is_create r.1) && r.2) log)).

(** The difference a call that returned [b] makes to the count. *)
Definition delta (o : op) (b : bool) : Z :=
  if b then (if is_create o then 1 else -1) else 0.

End Arena.

Arguments Returns {K A} a w.
Arguments Panics {K A} msg w.
Arguments Undefined {K A}.

(** ** A Linux kernel

    Written after shm_open(3), ftruncate(2), close(2), mmap(2), munmap(2)
    and msync(2).  The address space is the sorted list of its mappings, as
    in the kernel; descriptors, names and objects are association lists.
    Of mmap(2) the model has the two kinds of mapping the arena asks for,
    anonymous private and shared mappings of an object; it refuses the
    others. *)

Module Linux.

Definition PAGE_SIZE : Z := 4096.
Definition TASK_SIZE : Z := 2 ^ 47.
Definition mmap_min_addr : Z := 65536.
Definition MAX_LFS_FILESIZE : Z := 2 ^ 63 - 1.

Inductive file : Type :=
| ShmFile (ino : nat) (writable : bool)
| OtherFile.

(** What a mapping shows: fresh zero pages of its own, or the bytes of
    object [ino] from byte [pgoff] on. *)
Inductive backing : Type :=
| Anonymous
| Object (ino : nat) (pgoff : Z).

Record vma : Type := {
  vm_start : Z;
  vm_end : Z;
  vm_prot : Z;
  vm_backing : backing
}.

Record inode : Type := {
  i_size : Z;
  i_bytes : list (Z * Z)
}.

Record kernel : Type := {
  pid : Z;
  rlimit_nofile : Z;
  fdtable : list (Z * file);
  dev_shm : list (string * nat);
  inodes : list (nat * inode);
  mm : list vma;
  anon : list (Z * Z)
}.

Definition set_fdtable (t : list (Z * file)) (k : kernel) : kernel :=
  {| pid := pid k; rlimit_nofile := rlimit_nofile k; fdtable := t;
     dev_shm := dev_shm k; inodes := inodes k; mm := mm k; anon := anon k |}.
Definition set_dev_shm (d : list (string * nat)) (k : kernel) : kernel :=
  {| pid := pid k; rlimit_nofile := rlimit_nofile k; fdtable := fdtable k;
     dev_shm := d; inodes := inodes k; mm := mm k; anon := anon k |}.
Definition set_inodes (i : list (nat * inode)) (k : kernel) : kernel :=
  {| pid := pid k; rlimit_nofile := rlimit_nofile k; fdtable := fdtable k;
     dev_shm := dev_shm k; inodes := i; mm := mm k; anon := anon k |}.
Definition set_mm (m : list vma) (a : list (Z * Z)) (k : kernel) : kernel :=
  {| pid := pid k; rlimit_nofile := rlimit_nofile k; fdtable := fdtable k;
     dev_shm := dev_shm k; inodes := inodes k; mm := m; anon := a |}.

Fixpoint assoc {A B} (eqb : A → A → bool) (x : A) (l : list (A * B)) : option B :=
  match l with
  | [] => None
  | (y, b) :: l' => if eqb x y then Some b else assoc eqb x l'
  end.

Definition remove_key {A B} (eqb : A → A → bool) (x : A) (l : list (A * B)) : list (A * B) :=
  List.filter (λ p, negb (eqb x p.1)) l.

(** *** Descriptors, names, objects *)

Definition fd_free (t : list (Z * file)) (fd : Z) : bool :=
  match assoc Z.eqb fd t with None => true | Some _ => false end.

(** The lowest descriptor not in use. *)
Definition lowest_free_fd (t : list (Z * file)) : Z :=
  default 0 (List.find (fd_free t) (map Z.of_nat (seq 0 (S (length t))))).

Definition fresh_ino (i : list (nat * inode)) : nat :=
  S (foldr (λ p n, Nat.max p.1 n) 0%nat i).

Definition shm_open (name : string) (oflag mode : Z) (k : kernel) : Z * kernel :=
  let creat := Z.testbit oflag 6 in
  let excl := Z.testbit oflag 7 in
  let writable := Z.land oflag 3 =? O_RDWR in
  let fd := lowest_free_fd (fdtable k) in
  if negb (fd <? rlimit_nofile k) then (-1, k)
  else
    match assoc String.eqb name (dev_shm k) with
    | Some ino =>
        if creat && excl then (-1, k)
        else (fd, set_fdtable ((fd, ShmFile ino writable) :: fdtable k) k)
    | None =>
        if creat then
          let ino := fresh_ino (inodes k) in
          (fd, set_fdtable ((fd, ShmFile ino writable) :: fdtable k)
                 (set_dev_shm ((name, ino) :: dev_shm k)
                    (set_inodes ((ino, {| i_size := 0; i_bytes := [] |}) :: inodes k) k)))
        else (-1, k)
    end.

Definition shm_unlink (name : string) (k : kernel) : Z * kernel :=
  match assoc String.eqb name (dev_shm k) with
  | Some _ => (0, set_dev_shm (remove_key String.eqb name (dev_shm k)) k)
  | None => (-1, k)
  end.

Definition ftruncate64 (fd length : Z) (k : kernel) : Z * kernel :=
  match assoc Z.eqb fd (fdtable k) with
  | Some (ShmFile ino true) =>
      if (length <? 0) || (MAX_LFS_FILESIZE <? length) then (-1, k)
      else
        let bytes := match assoc Nat.eqb ino (inodes k) with
                     | Some i => List.filter (λ p, p.1 <? length) (i_bytes i)
                     | None => []
                     end in
        (0, set_inodes ((ino, {| i_size := length; i_bytes := bytes |})
                          :: remove_key Nat.eqb ino (inodes k)) k)
  | _ => (-1, k)
  end.

Definition close (fd : Z) (k : kernel) : Z * kernel :=
  match assoc Z.eqb fd (fdtable k) with
  | Some _ => (0, set_fdtable (remove_key Z.eqb fd (fdtable k)) k)
  | None => (-1, k)
  end.

(** *** The address space *)

Definition page_aligned (x : Z) : bool := x mod PAGE_SIZE =? 0.
Definition page_align_up (x : Z) : Z := (x + PAGE_SIZE - 1) / PAGE_SIZE * PAGE_SIZE.

(** What is left of [v] outside [a, e). *)
Definition vma_minus (a e : Z) (v : vma) : list vma :=
  if (vm_end v <=? a) || (e <=? vm_start v) then [v]
  else
    (if vm_start v <? a then
       [{| vm_start := vm_start v; vm_end := a; vm_prot := vm_prot v;
           vm_backing := vm_backing v |}]
     else []) ++
    (if e <? vm_end v then
       [{| vm_start := e; vm_end := vm_end v; vm_prot := vm_prot v;
           vm_backing := match vm_backing v with
                         | Anonymous => Anonymous
                         | Object ino pgoff => Object ino (pgoff + (e - vm_start v))
                         end |}]
     else []).

Definition unmap_range (a e : Z) (l : list vma) : list vma :=
  flat_map (vma_minus a e) l.

Definition drop_bytes (a e : Z) (bytes : list (Z * Z)) : list (Z * Z) :=
  List.filter (λ p, (p.1 <? a) || (e <=? p.1)) bytes.

Fixpoint insert_vma (v : vma) (l : list vma) : list vma :=
  match l with
  | [] => [v]
  | u :: l' => if vm_start v <? vm_start u then v :: l else u :: insert_vma v l'
  end.

(** The lowest gap of [len] bytes at or above [c]. *)
Fixpoint find_gap (c len : Z) (l : list vma) : Z :=
  match l with
  | [] => c
  | v :: l' => if c + len <=? vm_start v then c
               else find_gap (Z.max c (vm_end v)) len l'
  end.

(** Is every page of [a, e) mapped? *)
Fixpoint covered (a e : Z) (l : list vma) : bool :=
  if e <=? a then true
  else match l with
       | [] => false
       | v :: l' => if vm_end v <=? a then covered a e l'
                    else if vm_start v <=? a then covered (vm_end v) e l'
                    else false
       end.

Definition mmap (addr len prot flags fd off : Z) (k : kernel) : Z * kernel :=
  let shared := Z.testbit flags 0 in
  let private := Z.testbit flags 1 in
  let fixed := Z.testbit flags 4 in
  let anonymous := Z.testbit flags 5 in
  let plen := page_align_up len in
  let what : option backing :=
    if anonymous then (if private && negb shared then Some Anonymous else None)
    else if shared && negb private then
      match assoc Z.eqb fd (fdtable k) with
      | Some (ShmFile ino writable) =>
          if Z.testbit prot 1 && negb writable then None else Some (Object ino off)
      | _ => None
      end
    else None in
  match what with
  | None => (MAP_FAILED, k)
  | Some b =>
      if (len <=? 0) || negb (page_aligned off) || (off <? 0)
         || (MAX_LFS_FILESIZE <? off + plen) then (MAP_FAILED, k)
      else if fixed then
        if negb (page_aligned addr) || (addr <? mmap_min_addr)
           || (TASK_SIZE <? addr + plen) then (MAP_FAILED, k)
        else
          (addr, set_mm (insert_vma {| vm_start := addr; vm_end := addr + plen;
                                       vm_prot := prot; vm_backing := b |}
                           (unmap_range addr (addr + plen) (mm k)))
                        (drop_bytes addr (addr + plen) (anon k)) k)
      else
        let a := find_gap mmap_min_addr plen (mm k) in
        if TASK_SIZE <? a + plen then (MAP_FAILED, k)
        else
          (a, set_mm (insert_vma {| vm_start := a; vm_end := a + plen;
                                    vm_prot := prot; vm_backing := b |} (mm k))
                     (anon k) k)
  end.

Definition munmap (addr len : Z) (k : kernel) : Z * kernel :=
  let plen := page_align_up len in
  if negb (page_aligned addr) || (len <=? 0) || (TASK_SIZE <? addr + plen) then (-1, k)
  else (0, set_mm (unmap_range addr (addr + plen) (mm k))
                  (drop_bytes addr (addr + plen) (anon k)) k).

Definition msync (addr len flags : Z) (k : kernel) : Z * kernel :=
  if negb (page_aligned addr) || (flags <? 0) || (7 <? flags)
     || (Z.testbit flags 0 && Z.testbit flags 2) then (-1, k)
  else if covered addr (addr + page_align_up len) (mm k) then (0, k)
  else (-1, k).

(** *** What the process finds in memory *)

Definition vma_at (addr : Z) (k : kernel) : option vma :=
  List.find (λ v, (vm_start v <=? addr) && (addr <? vm_end v)) (mm k).

(** Reading the byte at [addr]: [None] is a fault. *)
Definition peek (addr : Z) (k : kernel) : option Z :=
  match vma_at addr k with
  | Some v =>
      if negb (Z.testbit (vm_prot v) 0) then None
      else match vm_backing v with
           | Anonymous => Some (default 0 (assoc Z.eqb addr (anon k)))
           | Object ino pgoff =>
               match assoc Nat.eqb ino (inodes k) with
               | Some i =>
                   let o := pgoff + (addr - vm_start v) in
                   if o <? page_align_up (i_size i)
                   then Some (default 0 (assoc Z.eqb o (i_bytes i)))
                   else None
               | None => None
               end
           end
  | None => None
  end.

(** Writing byte [b] at [addr]: [None] is a fault. *)
Definition poke (addr b : Z) (k : kernel) : option kernel :=
  match vma_at addr k with
  | Some v =>
      if negb (Z.testbit (vm_prot v) 1) then None
      else match vm_backing v with
           | Anonymous => Some (set_mm (mm k) ((addr, b) :: anon k) k)
           | Object ino pgoff =>
               match assoc Nat.eqb ino (inodes k) with
               | Some i =>
                   let o := pgoff + (addr - vm_start v) in
                   if o <? i_size i
                   then Some (set_inodes
                                ((ino, {| i_size := i_size i;
                                          i_bytes := (o, b) :: i_bytes i |})
                                   :: remove_key Nat.eqb ino (inodes k)) k)
                   else None
               | None => None
               end
           end
  | None => None
  end.

Definition name_bound (k : kernel) (name : string) : bool :=
  match assoc String.eqb name (dev_shm k) with Some _ => true | None => false end.

#[export] Instance linux : Kernel := {|
  kstate := kernel;
  sys_getpid := pid;
  sys_shm_open := shm_open;
  sys_shm_unlink := shm_unlink;
  sys_ftruncate64 := ftruncate64;
  sys_close := close;
  sys_mmap := mmap;
  sys_munmap := munmap;
  sys_msync := msync;
  shm_bound := name_bound
|}.

(** A process as a shell starts it: descriptors 0, 1 and 2 in use, nothing
    mapped yet. *)
Definition boot : kernel :=
  {| pid := 4242; rlimit_nofile := 1024;
     fdtable := [(0, OtherFile); (1, OtherFile); (2, OtherFile)];
     dev_shm := []; inodes := []; mm := []; anon := [] |}.

(** The size of the object behind descriptor [fd]. *)
Definition fd_size (fd : Z) (k : kernel) : option Z :=
  match assoc Z.eqb fd (fdtable k) with
  | Some (ShmFile ino _) => i_size <$> assoc Nat.eqb ino (inodes k)
  | _ => None
  end.

End Linux.

(** ** Processes to run the code in *)

Module Scenario.
Import Linux.

(** The address of the arena object. *)
Definition arena : nat := 1%nat.

(** A process on kernel state [k] that has made no call yet. *)
Definition start (k : kernel) : World := {| kern := k; heap := ∅; trace := [] |}.

(** The world [m] leaves behind. *)
Definition after {A} (m : M A) (w : World) : World :=
  match m w with
  | Returns _ w' => w'
  | Panics _ w' => w'
  | Undefined => w
  end.

(** What [m] returns, when it returns, and the message it stops the
    process with, when it does. *)
Definition value {A} (m : M A) (w : World) : option A :=
  match m w with
  | Returns a _ => Some a
  | _ => None
  end.
Definition panic {A} (m : M A) (w : World) : option string :=
  match m w with
  | Panics msg _ => Some msg
  | _ => None
  end.

(** Something else in the process changes the kernel state. *)
Definition elsewhere (f : kernel → kernel) (w : World) : World :=
  {| kern := f (kern w); heap := heap w; trace := trace w |}.

(** An arena has been constructed, and then created with 8192 bytes. *)
Definition constructed : World := after (MemoryArena_ctor arena) (start boot).
Definition arena8k : World := after (Create arena 8192 true false) constructed.

(** Other code of the process has mapped a private page of its own, which
    the kernel put at [taken], and has written 171 into its first byte. *)
Definition taken : Z := 65536.
Definition occupied : World :=
  elsewhere
    (λ k, let k1 := (Linux.mmap 0 4096 (Z.lor PROT_READ PROT_WRITE)
                       (Z.lor MAP_ANON MAP_PRIVATE) (-1) 0 k).2 in
          default k1 (poke taken 171 k1))
    arena8k.

(** The first page of the arena is mapped, at 65536, and [the_view] is the
    view object that holds the mapping. *)
Definition mapped (writable : bool) : World :=
  after (CreateViewPtr arena 0 4096 writable false nullptr) arena8k.
Definition the_view (writable : bool) : View := View_ctor arena 65536 0 4096 writable.

(** A process that was started with descriptor 0 closed. *)
Definition stdin_closed : kernel := (Linux.close 0 boot).2.

(** A process that has all the descriptors it may have. *)
Definition no_descriptor_left : kernel :=
  {| pid := 4242; rlimit_nofile := 3;
     fdtable := [(0, OtherFile); (1, OtherFile); (2, OtherFile)];
     dev_shm := []; inodes := []; mm := []; anon := [] |}.

(** The name [Create] is about to use is bound already (left behind by a
    process of the same id that died between its two calls). *)
Definition name_taken : kernel :=
  (Linux.shm_open (file_mapping_name 8192 4242) (create_oflag true) 384 boot).2.

(** Three creations, the second of size zero, and one release. *)
Definition session : list op :=
  [OpCreateViewPtr 0 4096 true false nullptr;
   OpCreateViewPtr 0 0 true false nullptr;
   OpCreateViewPtr 4096 4096 false false nullptr;
   OpReleaseViewPtr 65536 4096].

End Scenario.

(** ** Changing the protection of pages *)

(** [SetPageProtection] is static: it reads no member of any arena and makes
    one system call, [mprotect], which is none of the calls of [Kernel] and
    is a parameter here.  It takes the kernel from one state to the next. *)
Section Protection.
Context {K : Kernel}.
Variable sys_mprotect : Z → Z → Z → kstate → Z * kstate.

Definition SetPageProtection (address length : Z) (readable writable executable : bool)
    (k : kstate) : bool * kstate :=
  let prot := Z.lor (Z.lor (if readable then PROT_READ else 0)
                           (if writable then PROT_WRITE else 0))
                    (if executable then PROT_EXEC else 0) in
  let r := sys_mprotect address length prot k in
  (0 <=? r.1, r.2).

End Protection.

(** ** Views moved from holder to holder, and destroyed *)

Section Holders.
Context {K : Kernel}.

(** [v] moved once for each element of [flags], the flag the next holder
    reads: the last holder and the sources left behind, oldest first. *)
Fixpoint moves (flags : list bool) (v : View) : View * list View :=
  match flags with
  | [] => (v, [])
  | uninit :: flags' =>
      let '(held, source) := View_move uninit v in
      let '(last, sources) := moves flags' held in
      (last, source :: sources)
  end.

(** The destructors of [vs], in order. *)
Fixpoint destroy_all (vs : list View) : M unit :=
  match vs with
  | [] => ret tt
  | v :: vs' => bind (View_dtor v) (λ _, destroy_all vs')
  end.

End Holders.

(** ** Well-formed address spaces *)

Module LinuxInv.
Import Linux.

(** A mapping covers whole pages, at least one. *)
Definition vma_ok (v : vma) : Prop :=
  page_aligned (vm_start v) = true ∧ page_aligned (vm_end v) = true
  ∧ vm_start v < vm_end v.

(** The mappings are in address order and do not overlap. *)
Definition mm_ok (l : list vma) : Prop :=
  Forall vma_ok l ∧ StronglySorted (λ v u, vm_end v ≤ vm_start u) l.

End LinuxInv.

(** ** The front end (the second source file: its signal handling and [main])

    The calls into the rest of the program are events; what the program
    answers is a parameter. *)

Module Frontend.

Definition SIGINT : Z := 2.
Definition SIGTERM : Z := 15.
Definition EXIT_FAILURE : Z := 1.

Inductive disposition : Type :=
| SIG_DFL
| Handler.

Inductive event : Type :=
| Stderr (msg : string)
| RequestExit
| QuickExit (status : Z).

Inductive status : Type :=
| Running
| Exited (code : Z)
| Killed (signal : Z).

(** The process as the handler sees it: the function-local static, the
    dispositions set with [std::signal] (a signal not listed has its
    default), what has happened so far, and whether the process still runs. *)
Record process : Type := {
  graceful_shutdown_attempted : bool;
  handlers : gmap Z disposition;
  events : list event;
  state : status
}.

(** [std::signal(signal, h)] *)
Definition std_signal (signal : Z) (h : disposition) (p : process) : process :=
  {| graceful_shutdown_attempted := graceful_shutdown_attempted p;
     handlers := <[signal := h]> (handlers p);
     events := events p; state := state p |}.

(** [std::quick_exit(status)] *)
Definition quick_exit (code : Z) (p : process) : process :=
  {| graceful_shutdown_attempted := graceful_shutdown_attempted p;
     handlers := handlers p;
     events := events p ++ [QuickExit code]; state := Exited code |}.

(** The line the handler prints, with its line feed. *)
Definition shutdown_message : string :=
  "Received CTRL+C, attempting graceful shutdown. Press CTRL+C again to force."
  +:+ String (ascii_of_nat 10) "".

Definition SignalHandler (signal : Z) (p : process) : process :=
  if negb (graceful_shutdown_attempted p) then
    {| graceful_shutdown_attempted := true;
       handlers := handlers p;
       events := events p ++ [Stderr shutdown_message; RequestExit];
       state := state p |}
  else quick_exit 1 (std_signal signal SIG_DFL p).

Definition HookSignals (p : process) : process :=
  std_signal SIGTERM Handler (std_signal SIGINT Handler p).

(** The signal arrives: a running process runs the handler it has set for
    it, and is killed by the signal under the default disposition. *)
Definition deliver (p : process) (signal : Z) : process :=
  match state p with
  | Running =>
      match handlers p !! signal with
      | Some Handler => SignalHandler signal p
      | _ => {| graceful_shutdown_attempted := graceful_shutdown_attempted p;
                handlers := handlers p; events := events p;
                state := Killed signal |}
      end
  | _ => p
  end.

Definition deliver_all (p : process) (signals : list Z) : process :=
  foldl deliver p signals.

Definition requests (p : process) : nat :=
  length (List.filter (λ e, match e with RequestExit => true | _ => false end) (events p)).

(** *** [main] *)

Inductive call : Type :=
| CrashHandler_Install
| qRegisterMetaType
| QApplication_ctor
| Log_SetFilterLevel
| Log_SetConsoleOutputParams
| QtHostInterface_ctor
| ParseCommandLineParameters
| MainWindow_ctor
| Initialize
| Shutdown
| QMessageBox_critical
| initializeAndShow
| HookSignals_call
| InBatchMode
| refreshGameList
| GameList_Refresh
| bootSystem
| startupUpdateCheck
| app_exec.

(** What the rest of the program answers to [main]. *)
Record answers : Type := {
  parsed : bool;
  boot_params : bool;
  initialized : bool;
  batch_mode : bool;
  exec_result : Z
}.

(** The calls [main] makes, in order, and the value it returns. *)
Definition main (e : answers) : list call * Z :=
  let start := [CrashHandler_Install; qRegisterMetaType; qRegisterMetaType;
                QApplication_ctor; Log_SetFilterLevel; Log_SetConsoleOutputParams;
                QtHostInterface_ctor; ParseCommandLineParameters] in
  if negb (parsed e) then (start, EXIT_FAILURE)
  else
    let start := start ++ [MainWindow_ctor; Initialize] in
    if negb (initialized e) then
      (start ++ [Shutdown; QMessageBox_critical], EXIT_FAILURE)
    else
      (start ++ [initializeAndShow; HookSignals_call; InBatchMode]
         ++ [if negb (batch_mode e) then refreshGameList else GameList_Refresh]
         ++ [if boot_params e then bootSystem else startupUpdateCheck]
         ++ [app_exec; Shutdown],
       exec_result e).

#[export] Instance call_eq_dec : EqDecision call.
Proof. solve_decision. Defined.

(** How often [main] makes the call [c]. *)
Definition count (c : call) (l : list call) : nat :=
  length (List.filter (λ d, bool_decide (d = c)) l).

End Frontend.

(** * Facts *)

(** ** The name of the backing object *)

Lemma pretty_N_go_no_underscore x : ∀ s,
  mentions "_" s = false → mentions "_" (pretty_N_go x s) = false.
Proof.
  induction (N.lt_wf_0 x) as [x _ IH]; intros s Hs.
  destruct (decide (x = 0)%N) as [->|Hx]; [by rewrite pretty_N_go_0|].
  rewrite pretty_N_go_step by lia. apply IH.
  - apply N.div_lt; lia.
  - cbn [mentions]. rewrite Hs, orb_false_r.
    unfold pretty_N_char. by repeat case_match.
Qed.

Lemma pretty_no_underscore (z : Z) : mentions "_" (pretty z) = false.
Proof.
  assert (∀ p, mentions "_" (pretty (N.pos p)) = false) as Hpos.
  { intros p. unfold pretty, pretty_N. case_decide; [done|].
    by apply pretty_N_go_no_underscore. }
  destruct z as [|p|p]; [done|apply Hpos|].
  change (pretty (Z.neg p)) with (String "-" (pretty (N.pos p))).
  cbn [mentions]. by rewrite Hpos.
Qed.

Lemma append_underscore_inj a : ∀ a' b b',
  mentions "_" a = false → mentions "_" a' = false →
  a +:+ String "_" b = a' +:+ String "_" b' → a = a' ∧ b = b'.
Proof.
  induction a as [|c a IH]; intros [|c' a'] b b' Ha Ha' H;
    cbn [String.append mentions] in *.
  - by injection H.
  - injection H as <- _. by rewrite Ascii.eqb_refl in Ha'.
  - injection H as -> _. by rewrite Ascii.eqb_refl in Ha.
  - injection H as -> H.
    apply orb_false_elim in Ha as [_ Ha]. apply orb_false_elim in Ha' as [_ Ha'].
    destruct (IH a' b b' Ha Ha' H) as [-> ->]. done.
Qed.

(** X15: the name of the backing object tells the size and the process id,
    as the 32-bit number [Create] prints, apart from any other: two arenas
    get one name only if they have the same size and the same printed id. *)
Lemma file_mapping_name_inj size pid size' pid' :
  file_mapping_name size pid = file_mapping_name size' pid' →
  size = size' ∧ to_unsigned pid = to_unsigned pid'.
Proof.
  unfold file_mapping_name. intros H.
  apply (inj (String.app _)) in H.
  apply append_underscore_inj in H as [Hs Hp]; try apply pretty_no_underscore.
  split; by apply (inj pretty).
Qed.

Section ArenaFacts.
Context {K : Kernel}.

Implicit Types (w : World) (a : MemoryArena) (v : View) (this : nat).

(** ** One call at a time *)

Lemma CreateViewPtr_eq this a offset size writable executable fixed_address w :
  heap w !! this = Some a →
  CreateViewPtr this offset size writable executable fixed_address w =
    let r := sys_mmap fixed_address size (view_prot writable executable)
               (view_flags fixed_address) (m_shmem_fd a) (to_off64 offset) (kern w) in
    let w1 := logged w r.2
                (Mmap fixed_address size (view_prot writable executable)
                   (view_flags fixed_address) (m_shmem_fd a) (to_off64 offset) r.1) in
    if r.1 =? MAP_FAILED then Returns nullptr w1
    else Returns r.1 (with_arena w1 this (counting a ((m_num_views a + 1) mod 2 ^ 64))).
Proof.
  intros Ha. unfold CreateViewPtr, bind, load, mmap64, mmap, syscall_step.
  rewrite Ha. cbn.
  destruct (_ =? MAP_FAILED); [reflexivity|].
  unfold fetch_add, bind, load, store, ret. cbn. rewrite Ha. reflexivity.
Qed.

Lemma ReleaseViewPtr_eq this address size w :
  ReleaseViewPtr this address size w =
    let r := sys_munmap address size (kern w) in
    let w1 := logged w r.2 (Munmap address size r.1) in
    if 0 <=? r.1 then
      match heap w !! this with
      | Some a =>
          let w2 := with_arena w1 this (counting a ((m_num_views a - 1) mod 2 ^ 64)) in
          if 0 <? m_num_views a then Returns true w2 else Panics "prev_count > 0" w2
      | None => Undefined
      end
    else Returns false w1.
Proof.
  unfold ReleaseViewPtr, bind, munmap, syscall_step. cbn.
  destruct (0 <=? _); cbn; [|reflexivity].
  unfold fetch_sub, bind, load, store, ret, Assert, Panic. cbn.
  destruct (heap w !! this) as [a|]; [|reflexivity]. cbn.
  destruct (0 <? m_num_views a); reflexivity.
Qed.

Lemma FlushViewPtr_eq this address size w :
  FlushViewPtr this address size w =
    let r := sys_msync address size 0 (kern w) in
    Returns (0 <=? r.1) (logged w r.2 (Msync address size 0 r.1)).
Proof. reflexivity. Qed.

Lemma View_dtor_empty v w : m_parent v = None → View_dtor v w = Returns tt w.
Proof. intros Hp. unfold View_dtor. rewrite Hp. reflexivity. Qed.

(** ** Creating a view *)

(** C1, as the code has it: [CreateView] gives a view exactly when the
    [mmap64] call it makes does not answer [MAP_FAILED]; the arena compares
    nothing with its size.  When the call fails, the members of every arena,
    the live-view count among them, are as before and the failed call is all
    that happened; when it succeeds the view sits at the address the kernel
    gave and the count has gone up by one. *)
Theorem CreateView_succeeds_iff_mmap64
    `{!KernelLaws K} uninit this a offset size writable executable fixed_address w :
  heap w !! this = Some a →
  let r := sys_mmap fixed_address size (view_prot writable executable)
             (view_flags fixed_address) (m_shmem_fd a) (to_off64 offset) (kern w) in
  let w1 := logged w r.2
              (Mmap fixed_address size (view_prot writable executable)
                 (view_flags fixed_address) (m_shmem_fd a) (to_off64 offset) r.1) in
  (r.1 = MAP_FAILED →
     CreateView uninit this offset size writable executable fixed_address w
     = Returns None w1 ∧ heap w1 = heap w)
  ∧ (r.1 ≠ MAP_FAILED →
     ∃ view,
       CreateView uninit this offset size writable executable fixed_address w
       = Returns (Some view)
           (with_arena w1 this (counting a ((m_num_views a + 1) mod 2 ^ 64)))
       ∧ m_parent view = Some this ∧ m_base_pointer view = r.1
       ∧ m_arena_offset view = offset ∧ m_mapping_size view = size).
Proof.
  intros Ha r w1. unfold CreateView, bind.
  rewrite (CreateViewPtr_eq _ _ _ _ _ _ _ _ Ha). cbn zeta. fold r. fold w1.
  split; intros Hr.
  - rewrite Hr, Z.eqb_refl. cbn. done.
  - apply Z.eqb_neq in Hr. rewrite Hr.
    pose proof (mmap_nonnull fixed_address size (view_prot writable executable)
                  (view_flags fixed_address) (m_shmem_fd a) (to_off64 offset) (kern w))
      as Hnn.
    fold r in Hnn. apply Z.eqb_neq in Hnn. rewrite Hnn. cbn.
    eexists. split; [reflexivity|]. done.
Qed.

(** ** Releasing a view *)

(** C10: when [munmap] fails, [ReleaseViewPtr] returns false and no arena
    member has changed; the counter is decremented only after a successful
    [munmap]; the value before the decrement is asserted positive, which
    stops the process when it was zero (the counter has wrapped to
    [SIZE_MAX] by then); so whenever [ReleaseViewPtr] returns, the counter
    has not gone below zero. *)
Theorem ReleaseViewPtr_counter this a address size w :
  heap w !! this = Some a →
  0 ≤ m_num_views a < 2 ^ 64 →
  let r := sys_munmap address size (kern w) in
  let w1 := logged w r.2 (Munmap address size r.1) in
  (r.1 < 0 → ReleaseViewPtr this address size w = Returns false w1 ∧ heap w1 = heap w)
  ∧ (0 ≤ r.1 → 0 < m_num_views a →
     ReleaseViewPtr this address size w
     = Returns true (with_arena w1 this (counting a (m_num_views a - 1))))
  ∧ (0 ≤ r.1 → m_num_views a = 0 →
     ReleaseViewPtr this address size w
     = Panics "prev_count > 0" (with_arena w1 this (counting a SIZE_MAX)))
  ∧ (∀ b w', ReleaseViewPtr this address size w = Returns b w' →
     ∃ a', heap w' !! this = Some a'
           ∧ 0 ≤ m_num_views a'
           ∧ m_num_views a' = (if b then m_num_views a - 1 else m_num_views a)
           ∧ (b = true ↔ 0 ≤ r.1)).
Proof.
  intros Ha Hrange r w1. rewrite ReleaseViewPtr_eq. cbn zeta. fold r. fold w1.
  rewrite Ha. repeat split.
  - destruct (Z.leb_spec 0 r.1); [lia|reflexivity].
  - intros H0 Hpos. destruct (Z.leb_spec 0 r.1); [|lia].
    destruct (Z.ltb_spec 0 (m_num_views a)); [|lia].
    rewrite Z.mod_small by lia. reflexivity.
  - intros H0 Hz. destruct (Z.leb_spec 0 r.1); [|lia].
    rewrite Hz. reflexivity.
  - intros b w' Hret. destruct (Z.leb_spec 0 r.1).
    + destruct (Z.ltb_spec 0 (m_num_views a)); [|discriminate].
      injection Hret as <- <-. eexists. split; [apply lookup_insert_eq|].
      cbn. rewrite Z.mod_small by lia. repeat split; auto; lia.
    + injection Hret as <- <-. exists a. repeat split; auto; try lia; discriminate.
Qed.

(** The destructor, one step at a time. *)
Lemma View_dtor_eq v parent w :
  m_parent v = Some parent →
  View_dtor v w =
    let address := m_base_pointer v in
    let size := m_mapping_size v in
    let flush := sys_msync address size 0 (kern w) in
    let w1 := if m_writable v then logged w flush.2 (Msync address size 0 flush.1) else w in
    if m_writable v && negb (0 <=? flush.1)
    then Panics "Failed to flush previously-created view" w1
    else match ReleaseViewPtr parent address size w1 with
         | Returns ok w2 =>
             if ok then Returns tt w2
             else Panics "Failed to unmap previously-created view" w2
         | Panics msg w2 => Panics msg w2
         | Undefined => Undefined
         end.
Proof.
  intros Hp. unfold View_dtor. rewrite Hp. cbn zeta.
  destruct (m_writable v); cbn [andb].
  - unfold bind at 1. unfold bind at 1. rewrite FlushViewPtr_eq. cbn zeta.
    destruct (0 <=? _); cbn [negb]; [|reflexivity].
    unfold ret at 1, bind.
    destruct (ReleaseViewPtr _ _ _ _) as [[] ?| |]; reflexivity.
  - unfold bind at 1. unfold ret at 1. unfold bind.
    destruct (ReleaseViewPtr _ _ _ _) as [[] ?| |]; reflexivity.
Qed.

(** C5: the destructor of a view that still has its arena.  [w1] is the
    world after the flush, which is made only for a writable view, and [w2]
    the world after the unmap.  A failed flush stops the process before any
    unmap is tried; a failed unmap stops the process; otherwise the view is
    released, flush first, and the live-view count goes down by one. *)
Theorem View_dtor_flush_then_unmap v parent w :
  m_parent v = Some parent →
  let address := m_base_pointer v in
  let size := m_mapping_size v in
  let flush := sys_msync address size 0 (kern w) in
  let w1 := if m_writable v then logged w flush.2 (Msync address size 0 flush.1) else w in
  let unmap := sys_munmap address size (kern w1) in
  let w2 := logged w1 unmap.2 (Munmap address size unmap.1) in
  (m_writable v = true → flush.1 < 0 →
     View_dtor v w = Panics "Failed to flush previously-created view" w1)
  ∧ ((m_writable v = true → 0 ≤ flush.1) → unmap.1 < 0 →
     View_dtor v w = Panics "Failed to unmap previously-created view" w2)
  ∧ ((m_writable v = true → 0 ≤ flush.1) → 0 ≤ unmap.1 →
     ∀ a, heap w !! parent = Some a → 0 < m_num_views a < 2 ^ 64 →
     View_dtor v w = Returns tt (with_arena w2 parent (counting a (m_num_views a - 1))))
  ∧ trace w2 = trace w ++ (if m_writable v then [Msync address size 0 flush.1] else [])
                       ++ [Munmap address size unmap.1].
Proof.
  intros Hp address size flush w1 unmap w2.
  pose proof (View_dtor_eq v parent w Hp) as Hdtor. cbn zeta in Hdtor.
  fold address size flush w1 in Hdtor.
  rewrite ReleaseViewPtr_eq in Hdtor. cbn zeta in Hdtor. fold unmap w2 in Hdtor.
  assert (Hflushed : (m_writable v = true → 0 ≤ flush.1) →
                     m_writable v && negb (0 <=? flush.1) = false).
  { intros Hf. destruct (m_writable v); [|reflexivity].
    specialize (Hf eq_refl). destruct (Z.leb_spec 0 flush.1); [reflexivity|lia]. }
  repeat split.
  - intros Hw Hf. rewrite Hdtor, Hw.
    destruct (Z.leb_spec 0 flush.1); [lia|reflexivity].
  - intros Hf Hu. rewrite Hdtor, (Hflushed Hf).
    destruct (Z.leb_spec 0 unmap.1); [lia|reflexivity].
  - intros Hf Hu a Ha Hn. rewrite Hdtor, (Hflushed Hf).
    destruct (Z.leb_spec 0 unmap.1); [|lia].
    assert (heap w1 = heap w) as -> by (subst w1; destruct (m_writable v); reflexivity).
    rewrite Ha. destruct (Z.ltb_spec 0 (m_num_views a)); [|lia].
    rewrite Z.mod_small by lia. reflexivity.
  - subst w2 w1. destruct (m_writable v); cbn; [|reflexivity].
    rewrite <- app_assoc. reflexivity.
Qed.

(** ** The live-view count *)

Lemma created_cons o b log :
  created ((o, b) :: log) = (if is_create o && b then 1 else 0) + created log.
Proof.
  unfold created. cbn [List.filter fst snd].
  destruct (is_create o && b); cbn [length]; lia.
Qed.

Lemma released_cons o b log :
  released ((o, b) :: log) = (if negb (is_create o) && b then 1 else 0) + released log.
Proof.
  unfold released. cbn [List.filter fst snd].
  destruct (negb (is_create o) && b); cbn [length]; lia.
Qed.

(** A successful creation adds one, a successful release takes one away
    from a count that was positive, and a failed call leaves the count. *)
Lemma run_op_counter `{!KernelLaws K} this a o b w w' :
  heap w !! this = Some a →
  0 ≤ m_num_views a < 2 ^ 64 - 1 →
  run_op this o w = Returns b w' →
  ∃ a', heap w' !! this = Some a'
        ∧ m_num_views a' = m_num_views a + delta o b
        ∧ 0 ≤ m_num_views a'.
Proof.
  intros Ha Hn Hrun.
  destruct o as [offset size wr ex fixed|address size]; cbn [run_op] in Hrun.
  - unfold bind in Hrun. rewrite (CreateViewPtr_eq _ _ _ _ _ _ _ _ Ha) in Hrun.
    cbn zeta in Hrun.
    pose proof (mmap_nonnull fixed size (view_prot wr ex) (view_flags fixed)
                  (m_shmem_fd a) (to_off64 offset) (kern w)) as Hnn.
    destruct (_ =? MAP_FAILED) in Hrun.
    + injection Hrun as <- <-. exists a. cbn. split; [done|]. lia.
    + apply Z.eqb_neq in Hnn. unfold ret in Hrun. rewrite Hnn in Hrun.
      injection Hrun as <- <-. eexists. split; [apply lookup_insert_eq|].
      cbn. rewrite Z.mod_small by lia. lia.
  - rewrite ReleaseViewPtr_eq in Hrun. cbn zeta in Hrun. rewrite Ha in Hrun.
    destruct (0 <=? _) in Hrun.
    + destruct (Z.ltb_spec 0 (m_num_views a)); [|discriminate].
      injection Hrun as <- <-. eexists. split; [apply lookup_insert_eq|].
      cbn. rewrite Z.mod_small by lia. lia.
    + injection Hrun as <- <-. exists a. cbn. split; [done|]. lia.
Qed.

Lemma run_ops_counter `{!KernelLaws K} this ops : ∀ a w log w',
  heap w !! this = Some a →
  0 ≤ m_num_views a →
  m_num_views a + Z.of_nat (length ops) < 2 ^ 64 →
  run_ops this ops w = Returns log w' →
  ∃ a', heap w' !! this = Some a'
        ∧ m_num_views a' = m_num_views a + created log - released log
        ∧ 0 ≤ m_num_views a'
        ∧ length log = length ops.
Proof.
  induction ops as [|o ops IH]; intros a w log w' Ha H0 Hlen Hrun.
  - injection Hrun as <- <-. exists a. unfold created, released. cbn. split; [done|]. lia.
  - cbn [run_ops] in Hrun. unfold bind at 1 in Hrun.
    destruct (run_op this o w) as [b w1| |] eqn:Hop; try discriminate.
    unfold bind at 1 in Hrun.
    destruct (run_ops this ops w1) as [rest w2| |] eqn:Hrest; try discriminate.
    injection Hrun as <- <-.
    cbn [length] in Hlen.
    destruct (run_op_counter this a o b w w1 Ha ltac:(lia) Hop) as (a1 & Ha1 & Hc1 & Hp1).
    assert (Hd : -1 ≤ delta o b ≤ 1)
      by (unfold delta; destruct b, (is_create o); lia).
    destruct (IH a1 w1 rest w2 Ha1 Hp1 ltac:(lia) Hrest) as (a2 & Ha2 & Hc2 & Hp2 & Hl2).
    exists a2. rewrite created_cons, released_cons. cbn [length].
    split; [done|]. split; [|split; [done|lia]].
    rewrite Hc2, Hc1. unfold delta. destruct b, (is_create o); cbn; lia.
Qed.

(** On a live arena a sequence of calls returns, or stops the process at the
    assertion of [ReleaseViewPtr]; it never runs into undefined behaviour. *)
Lemma run_ops_defined this ops : ∀ a w,
  heap w !! this = Some a →
  match run_ops this ops w with
  | Returns _ w' => is_Some (heap w' !! this)
  | Panics msg _ => msg = "prev_count > 0"
  | Undefined => False
  end.
Proof.
  induction ops as [|o ops IH]; intros a w Ha; [cbn; eauto|].
  cbn [run_ops]. unfold bind at 1.
  assert (Hop : match run_op this o w with
                | Returns _ w' => is_Some (heap w' !! this)
                | Panics msg _ => msg = "prev_count > 0"
                | Undefined => False
                end).
  { destruct o as [offset size wr ex fixed|address size]; cbn [run_op].
    - unfold bind. rewrite (CreateViewPtr_eq _ _ _ _ _ _ _ _ Ha). cbn zeta.
      destruct (_ =? MAP_FAILED); cbn; [eauto|].
      rewrite lookup_insert_eq. eauto.
    - rewrite ReleaseViewPtr_eq. cbn zeta. rewrite Ha.
      destruct (0 <=? _); cbn; [|eauto].
      destruct (0 <? m_num_views a); cbn; [|done].
      rewrite lookup_insert_eq. eauto. }
  destruct (run_op this o w) as [b w1| |]; [|done..].
  destruct Hop as [a1 Ha1]. specialize (IH a1 w1 Ha1). unfold bind at 1.
  destruct (run_ops this ops w1) as [rest w2| |]; done.
Qed.

(** C6: on an arena that starts with no live view, after a sequence of calls
    of which [created log] view creations and [released log] releases
    succeeded, the live-view count is their difference, and no more views
    were released than created. *)
Theorem live_view_count `{!KernelLaws K} this a ops w log w' :
  heap w !! this = Some a →
  m_num_views a = 0 →
  Z.of_nat (length ops) < 2 ^ 64 →
  run_ops this ops w = Returns log w' →
  ∃ a', heap w' !! this = Some a'
        ∧ released log ≤ created log
        ∧ m_num_views a' = created log - released log.
Proof.
  intros Ha Hz Hlen Hrun.
  destruct (run_ops_counter this ops a w log w' Ha ltac:(lia) ltac:(lia) Hrun)
    as (a' & Ha' & Hc & Hp & _).
  exists a'. split; [done|]. lia.
Qed.

(** ** Creating the arena *)

Lemma Create_eq this a size writable executable w :
  heap w !! this = Some a →
  Create this size writable executable w =
    let name := file_mapping_name size (sys_getpid (kern w)) in
    let opened := sys_shm_open name (create_oflag writable) 384 (kern w) in
    let fd := opened.1 in
    let w1 := with_arena (logged w opened.2 (ShmOpen name (create_oflag writable) 384 fd))
                this {| m_shmem_fd := fd; m_num_views := m_num_views a |} in
    if fd <? 0 then Returns false w1
    else
      let unlinked := sys_shm_unlink name (kern w1) in
      let w2 := logged w1 unlinked.2 (ShmUnlink name unlinked.1) in
      let resized := sys_ftruncate64 fd (to_off64 size) (kern w2) in
      let w3 := logged w2 resized.2 (Ftruncate64 fd (to_off64 size) resized.1) in
      Returns (negb (resized.1 <? 0)) w3.
Proof.
  intros Ha. unfold Create, bind, getpid, shm_open, syscall_step.
  unfold set_m_shmem_fd, bind, load, store. cbn. rewrite Ha.
  destruct (_ <? 0); [reflexivity|].
  unfold shm_unlink, ftruncate64, syscall_step. cbn.
  destruct (_ <? 0); reflexivity.
Qed.

(** C8: [Create] always returns, and it returns false when [shm_open]
    refuses the object (a negative descriptor: the name is taken, or no
    descriptor or memory is left) and when [ftruncate64] refuses the size;
    it returns true in no other case. *)
Theorem Create_fails_when_refused this a size writable executable w :
  heap w !! this = Some a →
  let name := file_mapping_name size (sys_getpid (kern w)) in
  let opened := sys_shm_open name (create_oflag writable) 384 (kern w) in
  let resized :=
    sys_ftruncate64 opened.1 (to_off64 size) (sys_shm_unlink name opened.2).2 in
  ∃ b w', Create this size writable executable w = Returns b w'
          ∧ (opened.1 < 0 → b = false)
          ∧ (resized.1 < 0 → b = false)
          ∧ (b = true ↔ 0 ≤ opened.1 ∧ 0 ≤ resized.1).
Proof.
  intros Ha name opened resized.
  rewrite (Create_eq _ _ _ _ _ _ Ha). cbn zeta. fold name. fold opened.
  destruct (Z.ltb_spec opened.1 0) as [Hfd|Hfd].
  - eexists _, _. split; [reflexivity|]. repeat split; try done; lia.
  - eexists _, _. split; [reflexivity|]. cbn [kern with_arena logged]. fold resized.
    destruct (Z.ltb_spec resized.1 0); cbn [negb];
      repeat split; try done; try lia; intros [_ ?]; lia.
Qed.

(** C7: a successful [Create] opened the object under the name made of the
    size and the process id, unlinked that very name in the next system
    call, and the name is not bound when [Create] returns. *)
Theorem Create_unlinks_name `{!KernelLaws K} this size writable executable w w' :
  Create this size writable executable w = Returns true w' →
  let name := file_mapping_name size (sys_getpid (kern w)) in
  name = "common_memory_arena_" +:+ pretty size +:+ "_"
           +:+ pretty (sys_getpid (kern w) `mod` 2 ^ 32)
  ∧ (∃ fd unlinked resized,
       0 ≤ fd ∧
       trace w' = trace w ++ [ShmOpen name (create_oflag writable) 384 fd;
                              ShmUnlink name unlinked;
                              Ftruncate64 fd (to_off64 size) resized])
  ∧ shm_bound (kern w') name = false.
Proof.
  intros Hrun name.
  destruct (heap w !! this) as [a|] eqn:Ha;
    [|unfold Create, bind, getpid, shm_open, syscall_step, set_m_shmem_fd, bind, load in Hrun;
      cbn in Hrun; rewrite Ha in Hrun; discriminate].
  rewrite (Create_eq _ _ _ _ _ _ Ha) in Hrun. cbn zeta in Hrun. fold name in Hrun.
  destruct (Z.ltb_spec (sys_shm_open name (create_oflag writable) 384 (kern w)).1 0)
    as [Hfd|Hfd]; [discriminate|].
  injection Hrun as Hb <-. split; [reflexivity|]. split.
  - eexists _, _, _. split; [exact Hfd|]. cbn. rewrite <- !app_assoc. reflexivity.
  - cbn. rewrite ftruncate64_names. apply shm_unlink_unbinds.
Qed.

(** ** Destroying the arena *)

Lemma MemoryArena_dtor_eq this a w :
  heap w !! this = Some a →
  MemoryArena_dtor this w =
    let w1 := if 0 <? m_shmem_fd a
              then let r := sys_close (m_shmem_fd a) (kern w) in
                   logged w r.2 (Close (m_shmem_fd a) r.1)
              else w in
    Returns tt {| kern := kern w1; heap := delete this (heap w1); trace := trace w1 |}.
Proof.
  intros Ha. unfold MemoryArena_dtor, bind, load. rewrite Ha.
  destruct (0 <? m_shmem_fd a); reflexivity.
Qed.

(** On any kernel, an arena whose descriptor is 0 is destroyed without a
    system call: the descriptor stays open. *)
Lemma MemoryArena_dtor_descriptor_zero this a w :
  heap w !! this = Some a →
  m_shmem_fd a = 0 →
  MemoryArena_dtor this w =
    Returns tt {| kern := kern w; heap := delete this (heap w); trace := trace w |}.
Proof. intros Ha Hfd. rewrite (MemoryArena_dtor_eq _ _ _ Ha), Hfd. reflexivity. Qed.

(** ** Probing for a base address *)

Lemma FindBaseAddressForMapping_eq size w :
  FindBaseAddressForMapping size w =
    let r := sys_mmap nullptr size PROT_NONE (Z.lor MAP_ANON MAP_PRIVATE) (-1) 0 (kern w) in
    let w1 := logged w r.2
                (Mmap nullptr size PROT_NONE (Z.lor MAP_ANON MAP_PRIVATE) (-1) 0 r.1) in
    if r.1 =? nullptr then Returns nullptr w1
    else let u := sys_munmap r.1 size (kern w1) in
         Returns r.1 (logged w1 u.2 (Munmap r.1 size u.1)).
Proof.
  unfold FindBaseAddressForMapping, bind, mmap, munmap, syscall_step. cbn.
  destruct (_ =? nullptr); reflexivity.
Qed.

(** On any kernel, when [mmap] fails the probe hands [MAP_FAILED] to its
    caller as the base address. *)
Lemma FindBaseAddressForMapping_mmap_failed size w :
  (sys_mmap nullptr size PROT_NONE (Z.lor MAP_ANON MAP_PRIVATE) (-1) 0 (kern w)).1
    = MAP_FAILED →
  ∃ w', FindBaseAddressForMapping size w = Returns MAP_FAILED w'.
Proof.
  intros Hr. rewrite FindBaseAddressForMapping_eq. cbn zeta. rewrite Hr.
  change (MAP_FAILED =? nullptr) with false. cbn. eauto.
Qed.

(** ** Moving a view *)

Lemma View_move_holder uninit v :
  let held := (View_move uninit v).1 in
  m_parent held = m_parent v ∧ m_base_pointer held = m_base_pointer v
  ∧ m_arena_offset held = m_arena_offset v ∧ m_mapping_size held = m_mapping_size v
  ∧ m_writable held = uninit.
Proof. done. Qed.

Lemma View_move_source_inert uninit v w :
  View_dtor (View_move uninit v).2 w = Returns tt w.
Proof. reflexivity. Qed.

(** The view [CreateView] hands out has been through the move constructor:
    its flag is not the [writable] that was asked for. *)
Lemma CreateView_writable uninit this offset size writable executable fixed_address w view w' :
  CreateView uninit this offset size writable executable fixed_address w
    = Returns (Some view) w' →
  m_writable view = uninit.
Proof.
  unfold CreateView, bind.
  destruct (CreateViewPtr _ _ _ _ _ _ _) as [p w1| |]; try discriminate.
  destruct (p =? nullptr); [discriminate|]. cbn. intros [= <- _]. reflexivity.
Qed.

End ArenaFacts.

(** ** The Linux kernel of the model *)

Module LinuxFacts.
Import Linux.

Lemma find_gap_ge len l : ∀ c, c ≤ find_gap c len l.
Proof.
  induction l as [|v l IH]; intros c; cbn; [lia|].
  destruct (_ <=? _); [lia|]. specialize (IH (Z.max c (vm_end v))). lia.
Qed.

Lemma mmap_never_null addr len prot flags fd off k :
  (Linux.mmap addr len prot flags fd off k).1 ≠ nullptr.
Proof.
  unfold Linux.mmap.
  destruct (if Z.testbit flags 5 then _ else _) as [b|]; [|done].
  destruct (_ || _ || _ || _); [done|].
  destruct (Z.testbit flags 4).
  - destruct (Z.ltb_spec addr mmap_min_addr) as [|Hmin];
      [rewrite orb_true_r; done|].
    destruct (_ || _ || _); [done|]. cbn. unfold mmap_min_addr, nullptr in *. lia.
  - cbn zeta. destruct (_ <? _); [done|]. cbn.
    pose proof (find_gap_ge (page_align_up len) (mm k) mmap_min_addr).
    unfold mmap_min_addr, nullptr in *. lia.
Qed.

(** A refused [mmap] leaves the kernel as it was: no mapping is made. *)
Lemma mmap_failed_unchanged addr len prot flags fd off k :
  (Linux.mmap addr len prot flags fd off k).1 = MAP_FAILED →
  (Linux.mmap addr len prot flags fd off k).2 = k.
Proof.
  unfold Linux.mmap.
  destruct (if Z.testbit flags 5 then _ else _) as [b|]; [|done].
  destruct (Z.leb_spec len 0) as [|Hlen]; [done|]. cbn [orb].
  assert (Hplen : 0 ≤ page_align_up len).
  { unfold page_align_up, PAGE_SIZE.
    assert (0 ≤ (len + 4096 - 1) / 4096) by (apply Z.div_pos; lia). lia. }
  destruct (_ || _ || _); [done|].
  destruct (Z.testbit flags 4).
  - destruct (Z.ltb_spec TASK_SIZE (addr + page_align_up len)) as [|Htop];
      [rewrite orb_true_r; done|].
    destruct (_ || _); [done|]. cbn. intros ->.
    unfold TASK_SIZE, MAP_FAILED in *. lia.
  - cbn zeta. destruct (Z.ltb_spec TASK_SIZE
                          (find_gap mmap_min_addr (page_align_up len) (mm k)
                           + page_align_up len)) as [|Htop]; [done|].
    cbn. intros Heq. rewrite Heq in Htop.
    unfold TASK_SIZE, MAP_FAILED in *. lia.
Qed.

Lemma assoc_remove_key name (d : list (string * nat)) :
  assoc String.eqb name (remove_key String.eqb name d) = None.
Proof.
  induction d as [|[n i] d IH]; [done|].
  unfold remove_key in *. cbn. destruct (String.eqb name n) eqn:E; cbn; [done|].
  rewrite E. done.
Qed.

Lemma shm_unlink_name_unbound name k :
  name_bound (Linux.shm_unlink name k).2 name = false.
Proof.
  unfold Linux.shm_unlink, name_bound.
  destruct (assoc String.eqb name (dev_shm k)) eqn:E; cbn.
  - rewrite assoc_remove_key. done.
  - rewrite E. done.
Qed.

Lemma ftruncate64_name_bound fd len k name :
  name_bound (Linux.ftruncate64 fd len k).2 name = name_bound k name.
Proof.
  unfold Linux.ftruncate64.
  destruct (assoc Z.eqb fd (fdtable k)) as [[ino []|]|]; try done.
  destruct (_ || _); done.
Qed.

#[export] Instance linux_laws : KernelLaws linux.
Proof.
  split.
  - exact mmap_never_null.
  - exact shm_unlink_name_unbound.
  - exact ftruncate64_name_bound.
Qed.

End LinuxFacts.

(** ** The code run on the kernel of the model *)

Module Runs.
Import Linux Scenario LinuxFacts.

Ltac run := vm_compute; reflexivity.

Lemma value_Returns {A} (m : M A) w a w' : m w = Returns a w' → value m w = Some a.
Proof. unfold value. intros ->. reflexivity. Qed.

Lemma Returns_of_value {A} (m : M A) w a : value m w = Some a → m w = Returns a (after m w).
Proof. unfold value, after. destruct (m w); intros [=]. subst. reflexivity. Qed.

Lemma arena8k_created :
  value (Create arena 8192 true false) constructed = Some true
  ∧ heap arena8k !! arena = Some {| m_shmem_fd := 3; m_num_views := 0 |}
  ∧ fd_size 3 (kern arena8k) = Some 8192.
Proof. split_and!; run. Qed.

(** C1 as stated fails on the arena of 8192 bytes, both ways: the request
    for offset 0 and size 0 is within the arena and fails, and the request
    for offset 0 and size 16384 reaches past its end and succeeds, with a
    new mapping of four pages and a live-view count of one. *)
Lemma CreateView_bounds_counterexample :
  fd_size 3 (kern arena8k) = Some 8192
  ∧ (0 + 0 ≤ 8192
     ∧ value (CreateView false arena 0 0 true false nullptr) arena8k = Some None)
  ∧ (8192 < 0 + 16384
     ∧ let w' := after (CreateView false arena 0 16384 true false nullptr) arena8k in
       value (CreateView false arena 0 16384 true false nullptr) arena8k
       = Some (Some {| m_parent := Some arena; m_base_pointer := 65536;
                       m_arena_offset := 0; m_mapping_size := 16384;
                       m_writable := false |})
       ∧ m_num_views <$> heap arena8k !! arena = Some 0
       ∧ m_num_views <$> heap w' !! arena = Some 1
       ∧ mm (kern arena8k) = []
       ∧ mm (kern w') = [{| vm_start := 65536; vm_end := 81920; vm_prot := 3;
                            vm_backing := Object 1 0 |}]).
Proof. cbn zeta. split_and!; try lia; run. Qed.

(** On the arena of 8192 bytes: the first page is mapped at 65536, and a
    request at the unaligned offset 1 fails. *)
Lemma CreateView_succeeds_iff_mmap64_witness :
  heap arena8k !! arena = Some {| m_shmem_fd := 3; m_num_views := 0 |}
  ∧ (∃ view, value (CreateView false arena 0 4096 true false nullptr) arena8k
             = Some (Some view)
             ∧ m_base_pointer view = 65536)
  ∧ value (CreateView false arena 1 4096 true false nullptr) arena8k = Some None.
Proof.
  assert (Ha : heap arena8k !! arena = Some {| m_shmem_fd := 3; m_num_views := 0 |})
    by run.
  split; [exact Ha|]. split.
  - pose proof (CreateView_succeeds_iff_mmap64 false arena _ 0 4096 true false nullptr
                  arena8k Ha) as H.
    cbn zeta in H. destruct H as [_ H].
    destruct H as (view & Hrun & _ & Hbase & _); [vm_compute; discriminate|].
    exists view. split; [exact (value_Returns _ _ _ _ Hrun)|rewrite Hbase; run].
  - pose proof (CreateView_succeeds_iff_mmap64 false arena _ 1 4096 true false nullptr
                  arena8k Ha) as H.
    cbn zeta in H. destruct H as [H _].
    destruct H as [Hrun _]; [run|]. exact (value_Returns _ _ _ _ Hrun).
Defined.

(** C2 on the code: the page at [taken] belongs to other code of the process
    and holds 171.  A view asked for at that fixed address is granted: the
    call returns the address and counts a live view, and the page that was
    there is gone, the address now showing the first byte of the arena. *)
Theorem CreateViewPtr_fixed_address_replaces_mapping :
  let w' := after (CreateViewPtr arena 0 4096 true false taken) occupied in
  vma_at taken (kern occupied)
    = Some {| vm_start := 65536; vm_end := 69632; vm_prot := 3; vm_backing := Anonymous |}
  ∧ peek taken (kern occupied) = Some 171
  ∧ value (CreateViewPtr arena 0 4096 true false taken) occupied = Some taken
  ∧ trace w' = trace occupied ++ [Mmap taken 4096 3 (Z.lor MAP_SHARED MAP_FIXED) 3 0 taken]
  ∧ m_num_views <$> heap w' !! arena = Some 1
  ∧ vma_at taken (kern w')
    = Some {| vm_start := 65536; vm_end := 69632; vm_prot := 3; vm_backing := Object 1 0 |}
  ∧ peek taken (kern w') = Some 0.
Proof. cbn zeta. split_and!; run. Qed.

(** C3 on the code: no range of 2^47 bytes, the whole of the address space,
    can be reserved, and none of zero bytes; [mmap] answers [MAP_FAILED],
    which is not null, so the probe unmaps at it and returns it. *)
Theorem FindBaseAddressForMapping_returns_MAP_FAILED :
  MAP_FAILED ≠ nullptr
  ∧ value (FindBaseAddressForMapping (2 ^ 47)) (start boot) = Some MAP_FAILED
  ∧ trace (after (FindBaseAddressForMapping (2 ^ 47)) (start boot))
    = [Mmap 0 (2 ^ 47) 0 34 (-1) 0 MAP_FAILED; Munmap MAP_FAILED (2 ^ 47) (-1)]
  ∧ value (FindBaseAddressForMapping 0) (start boot) = Some MAP_FAILED
  ∧ trace (after (FindBaseAddressForMapping 0) (start boot))
    = [Mmap 0 0 0 34 (-1) 0 MAP_FAILED; Munmap MAP_FAILED 0 (-1)]
  ∧ value (FindBaseAddressForMapping 8192) (start boot) = Some 65536.
Proof. split; [done|]. split_and!; run. Qed.

(** C4 on the code: the new holder has the arena, address, offset and size
    of the source and the source is left inert, but the writable flag of the
    new holder is not the one of the source.  Released by its first holder,
    a writable view is flushed and unmapped; released after a move into a
    holder whose flag reads false, it is unmapped without a flush.  Whatever
    the flag of the holder reads, there is a view whose release after the
    move makes other system calls than its release before it. *)
Theorem View_move_forgets_writable :
  (∀ uninit v, m_writable (View_move uninit v).1 = uninit)
  ∧ (∀ uninit v w, View_dtor (View_move uninit v).2 w = Returns tt w)
  ∧ trace (after (View_dtor (the_view true)) (mapped true))
    = trace (mapped true) ++ [Msync 65536 4096 0 0; Munmap 65536 4096 0]
  ∧ trace (after (View_dtor (View_move false (the_view true)).1) (mapped true))
    = trace (mapped true) ++ [Munmap 65536 4096 0]
  ∧ (∀ uninit,
       trace (after (View_dtor (View_move uninit (the_view (negb uninit))).1)
                (mapped (negb uninit)))
       ≠ trace (after (View_dtor (the_view (negb uninit))) (mapped (negb uninit)))).
Proof.
  split; [reflexivity|]. split; [reflexivity|]. split; [run|]. split; [run|].
  intros []; vm_compute; discriminate.
Qed.

(** The writable view of the first page is flushed, then unmapped. *)
Lemma View_dtor_flush_then_unmap_witness :
  m_parent (the_view true) = Some arena
  ∧ ∃ w', View_dtor (the_view true) (mapped true) = Returns tt w'
          ∧ trace w' = trace (mapped true) ++ [Msync 65536 4096 0 0; Munmap 65536 4096 0]
          ∧ m_num_views <$> heap w' !! arena = Some 0.
Proof.
  split; [reflexivity|].
  pose proof (View_dtor_flush_then_unmap (the_view true) arena (mapped true) eq_refl) as H.
  cbn zeta in H. destruct H as (_ & _ & H & _).
  specialize (H ltac:(vm_compute; discriminate) ltac:(vm_compute; discriminate)
                {| m_shmem_fd := 3; m_num_views := 1 |} ltac:(run) ltac:(cbn; lia)).
  eexists. split; [exact H|]. split; run.
Defined.

(** With one live view: unmapping it brings the count to zero, and an
    unmap at an unaligned address fails and leaves the count at one. *)
Lemma ReleaseViewPtr_counter_witness :
  heap (mapped true) !! arena = Some {| m_shmem_fd := 3; m_num_views := 1 |}
  ∧ 0 ≤ 1 < 2 ^ 64
  ∧ (∃ w', ReleaseViewPtr arena 65536 4096 (mapped true) = Returns true w'
           ∧ m_num_views <$> heap w' !! arena = Some 0)
  ∧ (∃ w', ReleaseViewPtr arena 65537 4096 (mapped true) = Returns false w'
           ∧ m_num_views <$> heap w' !! arena = Some 1).
Proof.
  assert (Ha : heap (mapped true) !! arena = Some {| m_shmem_fd := 3; m_num_views := 1 |})
    by run.
  split; [exact Ha|]. split; [lia|]. split.
  - pose proof (ReleaseViewPtr_counter arena _ 65536 4096 (mapped true) Ha
                  ltac:(cbn; lia)) as H.
    cbn zeta in H. destruct H as (_ & H & _).
    specialize (H ltac:(vm_compute; discriminate) ltac:(cbn; lia)).
    eexists. split; [exact H|run].
  - pose proof (ReleaseViewPtr_counter arena _ 65537 4096 (mapped true) Ha
                  ltac:(cbn; lia)) as H.
    cbn zeta in H. destruct H as (H & _).
    destruct H as [H _]; [run|].
    eexists. split; [exact H|run].
Defined.

(** The calls of [session]: two views created, one released, one live. *)
Lemma live_view_count_witness :
  heap arena8k !! arena = Some {| m_shmem_fd := 3; m_num_views := 0 |}
  ∧ Z.of_nat (length session) < 2 ^ 64
  ∧ ∃ log w', run_ops arena session arena8k = Returns log w'
              ∧ log = [(OpCreateViewPtr 0 4096 true false nullptr, true);
                       (OpCreateViewPtr 0 0 true false nullptr, false);
                       (OpCreateViewPtr 4096 4096 false false nullptr, true);
                       (OpReleaseViewPtr 65536 4096, true)]
              ∧ created log = 2 ∧ released log = 1
              ∧ m_num_views <$> heap w' !! arena = Some 1.
Proof.
  assert (Ha : heap arena8k !! arena = Some {| m_shmem_fd := 3; m_num_views := 0 |})
    by run.
  assert (Hlen : Z.of_nat (length session) < 2 ^ 64) by (cbn; lia).
  split; [exact Ha|]. split; [exact Hlen|].
  eassert (Hrun : run_ops arena session arena8k = Returns _ _)
    by (apply Returns_of_value; run).
  destruct (live_view_count arena _ session arena8k _ _ Ha eq_refl Hlen Hrun)
    as (a' & Ha' & _ & Hcount).
  eexists _, _. split; [exact Hrun|]. split; [reflexivity|].
  split; [run|]. split; [run|].
  rewrite Ha'. cbn. rewrite Hcount. run.
Defined.

(** Creating the arena of 8192 bytes in process 4242. *)
Lemma Create_unlinks_name_witness :
  Create arena 8192 true false constructed = Returns true arena8k
  ∧ file_mapping_name 8192 (pid (kern constructed)) = "common_memory_arena_8192_4242"
  ∧ trace arena8k = [ShmOpen "common_memory_arena_8192_4242" 194 384 3;
                     ShmUnlink "common_memory_arena_8192_4242" 0;
                     Ftruncate64 3 8192 0]
  ∧ name_bound (kern arena8k) "common_memory_arena_8192_4242" = false.
Proof.
  assert (Hrun : Create arena 8192 true false constructed = Returns true arena8k)
    by (apply (Returns_of_value (Create arena 8192 true false) constructed true); run).
  split; [exact Hrun|]. split; [run|]. split; [run|].
  pose proof (Create_unlinks_name arena 8192 true false constructed arena8k Hrun) as H.
  cbn zeta in H. destruct H as (_ & _ & H). exact H.
Defined.

(** A size of 2^63 is no [off64_t]: [ftruncate64] refuses it. *)
Lemma Create_fails_when_refused_witness :
  heap constructed !! arena = Some {| m_shmem_fd := -1; m_num_views := 0 |}
  ∧ ∃ w', Create arena (2 ^ 63) true false constructed = Returns false w'.
Proof.
  assert (Ha : heap constructed !! arena = Some {| m_shmem_fd := -1; m_num_views := 0 |})
    by run.
  split; [exact Ha|].
  pose proof (Create_fails_when_refused arena _ (2 ^ 63) true false constructed Ha) as H.
  cbn zeta in H. destruct H as (b & w' & Hrun & _ & Hsize & _).
  exists w'. rewrite Hrun, Hsize; [reflexivity|]. vm_compute. reflexivity.
Defined.

(** Refusals on the kernel of the model: a size that is no [off64_t], no
    descriptor left, and a name that is taken, at the first attempt and at
    the next.  A size of zero is accepted; an arena that is not writable is
    refused, its descriptor being read-only when [ftruncate64] is to size the
    object. *)
Lemma Create_refused_examples :
  value (Create arena (2 ^ 63) true false) constructed = Some false
  ∧ value (Create arena 8192 true false)
      (after (MemoryArena_ctor arena) (start no_descriptor_left)) = Some false
  ∧ value (Create arena 8192 true false)
      (after (MemoryArena_ctor arena) (start name_taken)) = Some false
  ∧ trace (after (Create arena 8192 true false)
             (after (MemoryArena_ctor arena) (start name_taken)))
    = [ShmOpen "common_memory_arena_8192_4242" 194 384 (-1)]
  ∧ value (Create arena 8192 true false)
      (after (Create arena 8192 true false)
         (after (MemoryArena_ctor arena) (start name_taken))) = Some false
  ∧ value (Create arena 0 true false) constructed = Some true
  ∧ value (Create arena 8192 false false) constructed = Some false.
Proof. split_and!; run. Qed.

(** C9 on the code: a process started with descriptor 0 closed.  [Create]
    succeeds and the object gets descriptor 0; the destructor makes no
    system call, and the descriptor and the 8192 bytes behind it outlive the
    arena. *)
Theorem MemoryArena_dtor_leaves_descriptor_zero_open :
  let w0 := after (MemoryArena_ctor arena) (start stdin_closed) in
  let w1 := after (Create arena 8192 true false) w0 in
  let w2 := after (MemoryArena_dtor arena) w1 in
  fdtable stdin_closed = [(1, OtherFile); (2, OtherFile)]
  ∧ value (Create arena 8192 true false) w0 = Some true
  ∧ heap w1 !! arena = Some {| m_shmem_fd := 0; m_num_views := 0 |}
  ∧ value (MemoryArena_dtor arena) w1 = Some tt
  ∧ heap w2 !! arena = None
  ∧ trace w2 = [ShmOpen "common_memory_arena_8192_4242" 194 384 0;
                ShmUnlink "common_memory_arena_8192_4242" 0;
                Ftruncate64 0 8192 0]
  ∧ fdtable (kern w2) = [(0, ShmFile 1 true); (1, OtherFile); (2, OtherFile)]
  ∧ fd_size 0 (kern w2) = Some 8192.
Proof. cbn zeta. split_and!; run. Qed.

(** In a process that has descriptor 0 in use the object gets another
    descriptor and the destructor closes it. *)
Lemma MemoryArena_dtor_closes_descriptor :
  let w2 := after (MemoryArena_dtor arena) arena8k in
  value (MemoryArena_dtor arena) arena8k = Some tt
  ∧ trace w2 = trace arena8k ++ [Close 3 0]
  ∧ fdtable (kern w2) = fdtable boot
  ∧ dev_shm (kern w2) = [].
Proof. cbn zeta. split_and!; run. Qed.

End Runs.

(** * More about the arena code *)

Section Composition.
Context {K : Kernel}.

Implicit Types (w : World) (a : MemoryArena) (v : View) (this : nat).

(** X1: a view that was created and is then released, the unmap succeeding,
    leaves the members of every arena as they were before the creation: the
    live-view count is back, and the two system calls are all that
    happened. *)
Theorem CreateViewPtr_ReleaseViewPtr_restores
    this a offset size writable executable fixed_address w p w1 :
  heap w !! this = Some a →
  0 ≤ m_num_views a < 2 ^ 64 - 1 →
  CreateViewPtr this offset size writable executable fixed_address w = Returns p w1 →
  p ≠ nullptr →
  0 ≤ (sys_munmap p size (kern w1)).1 →
  ∃ w2, ReleaseViewPtr this p size w1 = Returns true w2
        ∧ heap w2 = heap w
        ∧ trace w2 = trace w
            ++ [Mmap fixed_address size (view_prot writable executable)
                  (view_flags fixed_address) (m_shmem_fd a) (to_off64 offset) p;
                Munmap p size (sys_munmap p size (kern w1)).1].
Proof.
  intros Ha Hn Hcreate Hp Hunmap.
  rewrite (CreateViewPtr_eq _ _ _ _ _ _ _ _ Ha) in Hcreate. cbn zeta in Hcreate.
  set (r := sys_mmap _ _ _ _ _ _ _) in *.
  destruct (_ =? MAP_FAILED) in Hcreate; injection Hcreate as <- <-; [done|].
  rewrite ReleaseViewPtr_eq. cbn zeta.
  cbn [kern heap with_arena logged] in *.
  set (u := sys_munmap _ _ _) in *.
  apply Z.leb_le in Hunmap. rewrite Hunmap, lookup_insert_eq.
  cbn [m_num_views counting].
  assert (Hm : (m_num_views a + 1) `mod` 2 ^ 64 = m_num_views a + 1)
    by (apply Z.mod_small; lia).
  rewrite !Hm.
  destruct (Z.ltb_spec 0 (m_num_views a + 1)); [|lia].
  eexists. split; [reflexivity|]. split.
  - cbn. rewrite insert_insert_eq. apply insert_id.
    rewrite Ha. f_equal. destruct a. cbn [m_shmem_fd m_num_views counting] in *. f_equal.
    replace (m_num_views0 + 1 - 1) with m_num_views0 by lia.
    symmetry. apply Z.mod_small. lia.
  - cbn. rewrite <- app_assoc. reflexivity.
Qed.

(** X2: the view [CreateView] hands out, destroyed while the unmap (and the
    flush, if its flag reads true) succeeds, leaves the members of every
    arena as they were before [CreateView]; whether it is flushed is decided
    by the flag its holder reads, not by the [writable] that was asked for. *)
Theorem CreateView_View_dtor_restores
    uninit this a offset size writable executable fixed_address w view w1 :
  heap w !! this = Some a →
  0 ≤ m_num_views a < 2 ^ 64 - 1 →
  CreateView uninit this offset size writable executable fixed_address w
    = Returns (Some view) w1 →
  let flush := sys_msync (m_base_pointer view) size 0 (kern w1) in
  let w1' := if uninit
             then logged w1 flush.2 (Msync (m_base_pointer view) size 0 flush.1)
             else w1 in
  let unmap := sys_munmap (m_base_pointer view) size (kern w1') in
  (uninit = true → 0 ≤ flush.1) →
  0 ≤ unmap.1 →
  ∃ w2, View_dtor view w1 = Returns tt w2
        ∧ heap w2 = heap w
        ∧ trace w2 = trace w1
            ++ (if uninit then [Msync (m_base_pointer view) size 0 flush.1] else [])
            ++ [Munmap (m_base_pointer view) size unmap.1].
Proof.
  intros Ha Hn Hcreate. unfold CreateView, bind in Hcreate.
  rewrite (CreateViewPtr_eq _ _ _ _ _ _ _ _ Ha) in Hcreate. cbn zeta in Hcreate.
  set (r := sys_mmap _ _ _ _ _ _ _) in *.
  destruct (_ =? MAP_FAILED) in Hcreate; [discriminate|].
  destruct (r.1 =? nullptr); [discriminate|].
  cbn in Hcreate. injection Hcreate as <- <-.
  cbn [m_base_pointer fst View_move View_ctor]. cbn zeta.
  set (flush := sys_msync _ _ _ _).
  set (w1' := if uninit then _ else _).
  set (unmap := sys_munmap _ _ _).
  intros Hflush Hunmap.
  rewrite (View_dtor_eq _ this) by reflexivity.
  cbn [m_base_pointer m_mapping_size m_writable fst View_move View_ctor]. cbn zeta.
  fold flush. fold w1'.
  assert (uninit && negb (0 <=? flush.1) = false) as ->.
  { destruct uninit; [|reflexivity]. specialize (Hflush eq_refl).
    apply Z.leb_le in Hflush. by rewrite Hflush. }
  rewrite ReleaseViewPtr_eq. cbn zeta. fold unmap.
  apply Z.leb_le in Hunmap. rewrite Hunmap.
  assert (Hh : heap w1' = <[this := counting a ((m_num_views a + 1) `mod` 2 ^ 64)]> (heap w))
    by (subst w1'; destruct uninit; reflexivity).
  rewrite Hh, lookup_insert_eq. cbn [m_num_views counting].
  assert (Hm : (m_num_views a + 1) `mod` 2 ^ 64 = m_num_views a + 1)
    by (apply Z.mod_small; lia).
  rewrite !Hm. destruct (Z.ltb_spec 0 (m_num_views a + 1)); [|lia].
  eexists. split; [reflexivity|]. split.
  - cbn [heap with_arena logged]. rewrite Hh, insert_insert_eq. apply insert_id.
    rewrite Ha. f_equal. destruct a. cbn [m_shmem_fd m_num_views counting] in *. f_equal.
    replace (m_num_views0 + 1 - 1) with m_num_views0 by lia.
    symmetry. apply Z.mod_small. lia.
  - subst w1'. destruct uninit; cbn; [|reflexivity].
    rewrite <- app_assoc. reflexivity.
Qed.

(** *** Holders *)

Lemma bind_unit (m : M unit) w : bind m (λ _, ret tt) w = m w.
Proof. unfold bind, ret. by destruct (m w) as [[] ?| |]. Qed.

Lemma destroy_all_inert sources rest w :
  Forall (λ s, m_parent s = None) sources →
  destroy_all (sources ++ rest) w = destroy_all rest w.
Proof.
  induction 1 as [|s sources Hs _ IH]; [done|].
  cbn [app destroy_all]. unfold bind. by rewrite (View_dtor_empty _ _ Hs).
Qed.

Lemma moves_facts flags : ∀ v,
  let last := (moves flags v).1 in
  Forall (λ s, m_parent s = None) (moves flags v).2
  ∧ m_parent last = m_parent v ∧ m_base_pointer last = m_base_pointer v
  ∧ m_arena_offset last = m_arena_offset v ∧ m_mapping_size last = m_mapping_size v.
Proof.
  induction flags as [|uninit flags IH]; intros v; cbn [moves];
    [cbn; split_and!; done || constructor|].
  unfold View_move.
  specialize (IH {| m_parent := m_parent v; m_base_pointer := m_base_pointer v;
                    m_arena_offset := m_arena_offset v;
                    m_mapping_size := m_mapping_size v; m_writable := uninit |}).
  destruct (moves flags _) as [last sources]. cbn in *.
  destruct IH as (? & ? & ? & ? & ?). split_and!; try done. by constructor.
Qed.

(** X3: however often a view is moved, the last holder has the arena, the
    address, the offset and the size of the first, and destroying every
    object there is, the sources before the holder or after it, releases the
    view once: it is what destroying the holder alone does. *)
Theorem moves_release_once flags v w :
  let last := (moves flags v).1 in
  let sources := (moves flags v).2 in
  destroy_all (sources ++ [last]) w = View_dtor last w
  ∧ destroy_all (last :: sources) w = View_dtor last w
  ∧ m_parent last = m_parent v ∧ m_base_pointer last = m_base_pointer v
  ∧ m_arena_offset last = m_arena_offset v ∧ m_mapping_size last = m_mapping_size v.
Proof.
  intros last sources.
  destruct (moves_facts flags v) as (Hinert & Hrest).
  split; [|split; [|exact Hrest]].
  - rewrite (destroy_all_inert _ _ _ Hinert). cbn [destroy_all]. apply bind_unit.
  - cbn [destroy_all]. unfold bind.
    destruct (View_dtor last w) as [[] w'| |]; try done.
    rewrite <- (app_nil_r sources). by rewrite (destroy_all_inert _ _ _ Hinert).
Qed.

(** *** The descriptor *)

Lemma Create_leaves this a size writable executable w b w1 :
  heap w !! this = Some a →
  Create this size writable executable w = Returns b w1 →
  let fd := (sys_shm_open (file_mapping_name size (sys_getpid (kern w)))
               (create_oflag writable) 384 (kern w)).1 in
  heap w1 = <[this := {| m_shmem_fd := fd; m_num_views := m_num_views a |}]> (heap w)
  ∧ ∃ evs, trace w1 = trace w ++ evs ∧ Forall (λ e, is_close e = false) evs.
Proof.
  intros Ha Hrun. rewrite (Create_eq _ _ _ _ _ _ Ha) in Hrun. cbn zeta in Hrun.
  destruct (_ <? 0) in Hrun; injection Hrun as <- <-; cbn; (split; [done|]).
  - eexists. split; [reflexivity|]. by repeat constructor.
  - eexists. rewrite <- !app_assoc. split; [reflexivity|]. by repeat constructor.
Qed.

Lemma MemoryArena_dtor_trace this a w :
  heap w !! this = Some a →
  ∃ w2, MemoryArena_dtor this w = Returns tt w2
        ∧ heap w2 = delete this (heap w)
        ∧ (0 < m_shmem_fd a →
           trace w2 = trace w ++ [Close (m_shmem_fd a) (sys_close (m_shmem_fd a) (kern w)).1])
        ∧ (m_shmem_fd a ≤ 0 → trace w2 = trace w ∧ kern w2 = kern w).
Proof.
  intros Ha. rewrite (MemoryArena_dtor_eq _ _ _ Ha). cbn zeta.
  eexists. split; [reflexivity|].
  destruct (Z.ltb_spec 0 (m_shmem_fd a)); cbn; split_and!; try done; lia.
Qed.

(** X4: once [Create] has run, whether it succeeded or failed, destroying the
    arena closes the descriptor [shm_open] gave if it is positive, and makes
    no system call at all otherwise; the arena is gone either way. *)
Theorem Create_MemoryArena_dtor_closes this a size writable executable w b w1 :
  heap w !! this = Some a →
  Create this size writable executable w = Returns b w1 →
  let fd := (sys_shm_open (file_mapping_name size (sys_getpid (kern w)))
               (create_oflag writable) 384 (kern w)).1 in
  ∃ w2, MemoryArena_dtor this w1 = Returns tt w2
        ∧ heap w2 !! this = None
        ∧ (0 < fd → trace w2 = trace w1 ++ [Close fd (sys_close fd (kern w1)).1])
        ∧ (fd ≤ 0 → trace w2 = trace w1 ∧ kern w2 = kern w1).
Proof.
  intros Ha Hrun fd.
  destruct (Create_leaves _ _ _ _ _ _ _ _ Ha Hrun) as [Hheap _]. fold fd in Hheap.
  destruct (MemoryArena_dtor_trace this {| m_shmem_fd := fd; m_num_views := m_num_views a |} w1)
    as (w2 & Hdtor & Hgone & Hpos & Hneg).
  { rewrite Hheap. apply lookup_insert_eq. }
  exists w2. split; [done|]. split; [|split; done].
  rewrite Hgone. apply lookup_delete_eq.
Qed.

(** X5: [Create] called twice on one arena and the arena then destroyed: of
    all the system calls made, the only [close] there can be is of the
    descriptor the second [shm_open] gave.  The first descriptor is never
    closed. *)
Theorem Create_twice_closes_second_only
    this a size1 writable1 executable1 size2 writable2 executable2 w b1 w1 b2 w2 :
  heap w !! this = Some a →
  Create this size1 writable1 executable1 w = Returns b1 w1 →
  Create this size2 writable2 executable2 w1 = Returns b2 w2 →
  let fd2 := (sys_shm_open (file_mapping_name size2 (sys_getpid (kern w1)))
                (create_oflag writable2) 384 (kern w1)).1 in
  ∃ w3 evs, MemoryArena_dtor this w2 = Returns tt w3
            ∧ trace w3 = trace w ++ evs
            ∧ ∀ fd r, Close fd r ∈ evs → fd = fd2.
Proof.
  intros Ha Hrun1 Hrun2 fd2.
  destruct (Create_leaves _ _ _ _ _ _ _ _ Ha Hrun1) as (Hheap1 & evs1 & Htr1 & Hev1).
  assert (Ha1 : heap w1 !! this = Some {| m_shmem_fd := (sys_shm_open
                 (file_mapping_name size1 (sys_getpid (kern w))) (create_oflag writable1)
                 384 (kern w)).1; m_num_views := m_num_views a |})
    by (rewrite Hheap1; apply lookup_insert_eq).
  destruct (Create_leaves _ _ _ _ _ _ _ _ Ha1 Hrun2) as (Hheap2 & evs2 & Htr2 & Hev2).
  fold fd2 in Hheap2. cbn [m_num_views] in Hheap2.
  destruct (MemoryArena_dtor_trace this {| m_shmem_fd := fd2; m_num_views := m_num_views a |} w2)
    as (w3 & Hdtor & _ & Hpos & Hneg).
  { rewrite Hheap2. apply lookup_insert_eq. }
  cbn [m_shmem_fd] in Hpos, Hneg.
  assert (Hno : ∀ evs fd r, Forall (λ e, is_close e = false) evs → Close fd r ∉ evs).
  { intros evs fd r Hall Hin. rewrite Forall_forall in Hall. by apply Hall in Hin. }
  destruct (Z.lt_ge_cases 0 fd2) as [H2|H2].
  - exists w3, (evs1 ++ evs2 ++ [Close fd2 (sys_close fd2 (kern w2)).1]).
    split; [done|]. split.
    + rewrite (Hpos H2), Htr2, Htr1, <- !app_assoc. reflexivity.
    + intros fd r. rewrite !elem_of_app, list_elem_of_singleton.
      intros [Hin|[Hin|[= -> _]]]; [by apply Hno in Hin..|done].
  - exists w3, (evs1 ++ evs2). split; [done|]. split.
    + destruct (Hneg H2) as [-> _]. rewrite Htr2, Htr1, <- !app_assoc. reflexivity.
    + intros fd r. rewrite elem_of_app. intros [Hin|Hin]; by apply Hno in Hin.
Qed.

(** *** What view operations leave alone *)

Lemma run_op_frame this o w b w1 :
  run_op this o w = Returns b w1 →
  (∀ other, other ≠ this → heap w1 !! other = heap w !! other)
  ∧ m_shmem_fd <$> heap w1 !! this = m_shmem_fd <$> heap w !! this.
Proof.
  intros Hrun. destruct o as [offset size wr ex fixed|address size]; cbn [run_op] in Hrun.
  - destruct (heap w !! this) as [a|] eqn:Ha.
    + unfold bind in Hrun. rewrite (CreateViewPtr_eq _ _ _ _ _ _ _ _ Ha) in Hrun.
      cbn zeta in Hrun. destruct (_ =? MAP_FAILED) in Hrun; injection Hrun as <- <-; cbn.
      * split; [done|by rewrite Ha].
      * split; [intros other Hne; by rewrite lookup_insert_ne|].
        by rewrite lookup_insert_eq.
    + unfold bind, CreateViewPtr, bind, load in Hrun. by rewrite Ha in Hrun.
  - rewrite ReleaseViewPtr_eq in Hrun. cbn zeta in Hrun.
    destruct (0 <=? _) in Hrun; [|by injection Hrun as <- <-].
    destruct (heap w !! this) as [a|] eqn:Ha; [|done].
    destruct (0 <? m_num_views a); [|done]. injection Hrun as <- <-. cbn.
    split; [intros other Hne; by rewrite lookup_insert_ne|].
    by rewrite lookup_insert_eq.
Qed.

(** X6: creating and releasing views of one arena, in any number and order,
    never changes the descriptor of that arena and never touches another
    arena. *)
Theorem run_ops_frame this ops : ∀ w log w',
  run_ops this ops w = Returns log w' →
  (∀ other, other ≠ this → heap w' !! other = heap w !! other)
  ∧ m_shmem_fd <$> heap w' !! this = m_shmem_fd <$> heap w !! this.
Proof.
  induction ops as [|o ops IH]; intros w log w' Hrun.
  - by injection Hrun as <- <-.
  - cbn [run_ops] in Hrun. unfold bind at 1 in Hrun.
    destruct (run_op this o w) as [b w1| |] eqn:Hop; try done.
    unfold bind at 1 in Hrun.
    destruct (run_ops this ops w1) as [rest w2| |] eqn:Hrest; try done.
    injection Hrun as <- <-.
    destruct (run_op_frame _ _ _ _ _ Hop) as [Hother1 Hfd1].
    destruct (IH _ _ _ Hrest) as [Hother2 Hfd2].
    split; [|by rewrite Hfd2].
    intros other Hne. by rewrite Hother2, Hother1.
Qed.

(** *** Page protection *)

(** X7: [SetPageProtection] asks [mprotect] for a protection whose three low
    bits are the three flags, in the order read, write, execute, and for
    nothing else; with [readable] set it is the protection a view is created
    with.  It returns whether [mprotect] did not fail. *)
Theorem SetPageProtection_prot
    (sys_mprotect : Z → Z → Z → kstate → Z * kstate)
    address length readable writable executable k :
  ∃ prot,
    SetPageProtection sys_mprotect address length readable writable executable k
    = (0 <=? (sys_mprotect address length prot k).1, (sys_mprotect address length prot k).2)
    ∧ 0 ≤ prot < 8
    ∧ Z.testbit prot 0 = readable ∧ Z.testbit prot 1 = writable
    ∧ Z.testbit prot 2 = executable
    ∧ (readable = true → prot = view_prot writable executable)
    ∧ (prot = PROT_NONE ↔ readable = false ∧ writable = false ∧ executable = false).
Proof.
  eexists. split; [reflexivity|].
  unfold view_prot, PROT_NONE, PROT_READ, PROT_WRITE, PROT_EXEC.
  destruct readable, writable, executable; cbn; split_and!; try done; try lia;
    (split; [intros ?|intros (? & ? & ?)]; done).
Qed.

End Composition.

(** * More about the code on the Linux kernel of the model *)

Module LinuxMore.
Import Linux LinuxInv Scenario LinuxFacts.

Lemma page_align_up_ge x : 0 < x → x ≤ page_align_up x.
Proof.
  intros Hx. unfold page_align_up, PAGE_SIZE.
  pose proof (Z.div_mod (x + 4096 - 1) 4096 ltac:(lia)).
  pose proof (Z.mod_pos_bound (x + 4096 - 1) 4096 ltac:(lia)). lia.
Qed.

Lemma page_aligned_max x y :
  page_aligned x = true → page_aligned y = true → page_aligned (Z.max x y) = true.
Proof. intros Hx Hy. destruct (Z.max_spec x y) as [[_ ->]|[_ ->]]; done. Qed.

Lemma find_gap_aligned len l : ∀ c,
  Forall vma_ok l → page_aligned c = true → page_aligned (find_gap c len l) = true.
Proof.
  induction l as [|v l IH]; intros c Hok Hc; cbn; [done|].
  inversion_clear Hok as [|? ? (_ & Hend & _) Hl].
  destruct (_ <=? _); [done|]. apply IH; [done|]. by apply page_aligned_max.
Qed.

(** The gap [find_gap] finds overlaps no mapping. *)
Lemma find_gap_free len l : ∀ c,
  mm_ok l →
  Forall (λ u, vm_end u ≤ find_gap c len l ∨ find_gap c len l + len ≤ vm_start u) l.
Proof.
  induction l as [|v l IH]; intros c [Hok Hsorted]; cbn; [constructor|].
  inversion_clear Hok as [|? ? (_ & _ & Hv) Hl].
  inversion_clear Hsorted as [|? ? Hsl Hafter].
  destruct (Z.leb_spec (c + len) (vm_start v)) as [Hfit|Hno].
  - constructor; [lia|].
    apply (Forall_impl _ _ _ Hafter). intros u Hu. lia.
  - pose proof (find_gap_ge len l (Z.max c (vm_end v))).
    constructor; [lia|]. by apply IH.
Qed.

Lemma unmap_range_free a e l :
  Forall (λ u, vm_end u ≤ a ∨ e ≤ vm_start u) l → unmap_range a e l = l.
Proof.
  induction 1 as [|v l Hv _ IH]; [done|].
  unfold unmap_range in *. cbn. rewrite IH. unfold vma_minus.
  destruct (Z.leb_spec (vm_end v) a), (Z.leb_spec e (vm_start v)); cbn; try done; lia.
Qed.

Lemma unmap_range_insert_vma a e prot b l :
  a < e →
  Forall (λ u, vm_end u ≤ a ∨ e ≤ vm_start u) l →
  unmap_range a e
    (insert_vma {| vm_start := a; vm_end := e; vm_prot := prot; vm_backing := b |} l) = l.
Proof.
  intros Hae Hfree.
  assert (Hnew : ∀ l', unmap_range a e
            ({| vm_start := a; vm_end := e; vm_prot := prot; vm_backing := b |} :: l')
            = unmap_range a e l').
  { intros l'. unfold unmap_range. cbn. unfold vma_minus. cbn.
    destruct (Z.leb_spec e a); [lia|]. cbn.
    destruct (Z.ltb_spec a a); [lia|]. destruct (Z.ltb_spec e e); [lia|]. done. }
  induction Hfree as [|v l Hv Hl IH]; cbn [insert_vma vm_start].
  - by rewrite Hnew.
  - destruct (_ <? _).
    + rewrite Hnew. apply unmap_range_free. by constructor.
    + change (unmap_range a e (v :: ?l')) with (vma_minus a e v ++ unmap_range a e l').
      rewrite IH. unfold vma_minus.
      destruct (Z.leb_spec (vm_end v) a), (Z.leb_spec e (vm_start v)); cbn; try done; lia.
Qed.

Lemma find_insert_vma x n l :
  (x < vm_start n ∨ vm_end n ≤ x) →
  List.find (λ v, (vm_start v <=? x) && (x <? vm_end v)) (insert_vma n l)
  = List.find (λ v, (vm_start v <=? x) && (x <? vm_end v)) l.
Proof.
  intros Hx.
  assert (Hn : (vm_start n <=? x) && (x <? vm_end n) = false).
  { destruct (Z.leb_spec (vm_start n) x), (Z.ltb_spec x (vm_end n)); cbn; try done; lia. }
  induction l as [|u l IH]; cbn [insert_vma]; [cbn [List.find]; by rewrite Hn|].
  destruct (vm_start n <? vm_start u); cbn [List.find]; [by rewrite Hn|]. by rewrite IH.
Qed.

Lemma assoc_drop_bytes x a e bytes :
  (x < a ∨ e ≤ x) → assoc Z.eqb x (drop_bytes a e bytes) = assoc Z.eqb x bytes.
Proof.
  intros Hx. induction bytes as [|[y b] bytes IH]; [done|].
  unfold drop_bytes in *. cbn.
  destruct (Z.ltb_spec y a), (Z.leb_spec e y); cbn;
    destruct (Z.eqb_spec x y); try done; lia.
Qed.

(** A byte that lies in no part of [a, e) reads the same once the mappings
    are [m'] and the anonymous bytes of [a, e) are dropped, if the mapping
    at the byte is the same. *)
Lemma peek_outside x a e m' k :
  vma_at x (set_mm m' (drop_bytes a e (anon k)) k) = vma_at x k →
  (∀ v, vma_at x k = Some v → x < a ∨ e ≤ x) →
  peek x (set_mm m' (drop_bytes a e (anon k)) k) = peek x k.
Proof.
  intros Hat Hout. unfold peek. rewrite Hat.
  destruct (vma_at x k) as [v|] eqn:Hv; [|done].
  destruct (negb _); [done|]. destruct (vm_backing v); [|done].
  cbn. by rewrite assoc_drop_bytes by eauto.
Qed.

Lemma vma_at_inside x k v :
  vma_at x k = Some v → v ∈ mm k ∧ vm_start v ≤ x < vm_end v.
Proof.
  unfold vma_at. intros H. apply List.find_some in H as [Hin Hc].
  apply andb_prop in Hc as [?%Z.leb_le ?%Z.ltb_lt].
  split; [by apply list_elem_of_In|lia].
Qed.

(** The probe, on the kernel alone: where it succeeds, [mmap] puts a
    placeholder into the lowest gap and [munmap] takes it out again. *)
Lemma probe_kernel k size :
  let r := sys_mmap nullptr size PROT_NONE (Z.lor MAP_ANON MAP_PRIVATE) (-1) 0 k in
  let g := find_gap mmap_min_addr (page_align_up size) (mm k) in
  r.1 ≠ MAP_FAILED →
  mm_ok (mm k) →
  r.1 = g ∧ 0 < size ∧ g + page_align_up size ≤ TASK_SIZE
  ∧ page_aligned g = true
  ∧ Linux.munmap g size r.2
    = (0, set_mm (mm k) (drop_bytes g (g + page_align_up size) (anon k)) k).
Proof.
  intros r g Hr Hok. subst r.
  change (@sys_mmap linux) with Linux.mmap in *.
  unfold Linux.mmap in *.
  change (Z.testbit (Z.lor MAP_ANON MAP_PRIVATE) 0) with false in *.
  change (Z.testbit (Z.lor MAP_ANON MAP_PRIVATE) 1) with true in *.
  change (Z.testbit (Z.lor MAP_ANON MAP_PRIVATE) 4) with false in *.
  change (Z.testbit (Z.lor MAP_ANON MAP_PRIVATE) 5) with true in *.
  cbn [andb negb] in *. cbn zeta in *. fold g in Hr |- *.
  destruct (Z.leb_spec size 0) as [|Hsize]; [done|]. cbn [orb] in *.
  destruct (_ || _ || _); [done|].
  destruct (Z.ltb_spec TASK_SIZE (g + page_align_up size)) as [|Htop]; [done|].
  cbn [fst snd].
  assert (Hg : page_aligned g = true)
    by (apply find_gap_aligned; [apply Hok|done]).
  split_and!; try done.
  unfold Linux.munmap. rewrite Hg. cbn [negb orb mm anon set_mm].
  destruct (Z.leb_spec size 0); [lia|].
  destruct (Z.ltb_spec TASK_SIZE (g + page_align_up size)); [lia|]. cbn [orb].
  f_equal. unfold set_mm. cbn. f_equal.
  apply unmap_range_insert_vma; [pose proof (page_align_up_ge size); lia|].
  by apply find_gap_free.
Qed.

(** The probe, in the world: where it succeeds it returns the lowest gap and
    leaves the kernel with the mappings it had. *)
Lemma probe_world (w : World) size p w' :
  mm_ok (mm (kern w)) →
  FindBaseAddressForMapping size w = Returns p w' →
  p ≠ MAP_FAILED →
  p = find_gap mmap_min_addr (page_align_up size) (mm (kern w))
  ∧ 0 < size ∧ page_aligned p = true ∧ p + page_align_up size ≤ TASK_SIZE
  ∧ kern w' = set_mm (mm (kern w))
                (drop_bytes p (p + page_align_up size) (anon (kern w))) (kern w)
  ∧ heap w' = heap w.
Proof.
  intros Hok Hrun Hp. rewrite FindBaseAddressForMapping_eq in Hrun. cbn zeta in Hrun.
  pose proof (mmap_nonnull nullptr size PROT_NONE (Z.lor MAP_ANON MAP_PRIVATE) (-1) 0
                (kern w)) as Hnn.
  destruct (probe_kernel (kern w) size) as (Hg & Hsize & Htop & Halign & Hunmap);
    [|done|].
  { intros Hfail. rewrite Hfail in Hrun. by injection Hrun as <- _. }
  set (r := sys_mmap _ _ _ _ _ _ _) in *.
  apply Z.eqb_neq in Hnn. rewrite Hnn in Hrun.
  rewrite <- Hg in Htop, Halign, Hunmap.
  assert (Hres : p = r.1 ∧ kern w' = (Linux.munmap r.1 size r.2).2 ∧ heap w' = heap w)
    by (by injection Hrun as <- <-).
  destruct Hres as (-> & Hk & Hh). rewrite Hunmap in Hk. by cbn [snd] in Hk.
Qed.

(** The bytes of the process after a probe. *)
Lemma probe_peek k p size x :
  Forall (λ u, vm_end u ≤ p ∨ p + page_align_up size ≤ vm_start u) (mm k) →
  peek x (set_mm (mm k) (drop_bytes p (p + page_align_up size) (anon k)) k) = peek x k.
Proof.
  intros Hfree. apply peek_outside; [done|].
  intros v Hv. apply vma_at_inside in Hv as [Hin Hx].
  rewrite Forall_forall in Hfree. specialize (Hfree v Hin). lia.
Qed.

(** X8: a probe that succeeds leaves the process as it found it: the
    mappings, the descriptors and every byte of memory are as before, no
    arena is touched, and the address it returns is page aligned and starts
    a range of the requested size that is free when the probe returns. *)
Theorem FindBaseAddressForMapping_leaves_address_space (w : World) size p w' :
  mm_ok (mm (kern w)) →
  FindBaseAddressForMapping size w = Returns p w' →
  p ≠ MAP_FAILED →
  0 < size ∧ page_aligned p = true ∧ mmap_min_addr ≤ p
  ∧ p + page_align_up size ≤ TASK_SIZE
  ∧ Forall (λ u, vm_end u ≤ p ∨ p + page_align_up size ≤ vm_start u) (mm (kern w'))
  ∧ mm (kern w') = mm (kern w)
  ∧ fdtable (kern w') = fdtable (kern w)
  ∧ inodes (kern w') = inodes (kern w)
  ∧ (∀ x, peek x (kern w') = peek x (kern w))
  ∧ heap w' = heap w.
Proof.
  intros Hok Hrun Hp.
  destruct (probe_world w size p w' Hok Hrun Hp)
    as (Hg & Hsize & Halign & Htop & Hk & Hh).
  pose proof (find_gap_ge (page_align_up size) (mm (kern w)) mmap_min_addr) as Hmin.
  pose proof (find_gap_free (page_align_up size) (mm (kern w)) mmap_min_addr Hok)
    as Hfree.
  rewrite <- Hg in Hmin, Hfree. rewrite Hk.
  split_and!; try done.
  intros x. by apply probe_peek.
Qed.

Lemma peek_preserved x k k' :
  vma_at x k' = vma_at x k →
  assoc Z.eqb x (anon k') = assoc Z.eqb x (anon k) →
  inodes k' = inodes k →
  peek x k' = peek x k.
Proof. intros Hat Hanon Hino. unfold peek. by rewrite Hat, Hanon, Hino. Qed.

(** A view placed at a fixed, free range: the kernel grants it there and
    adds it to the mappings. *)
Lemma fixed_view_kernel k p size prot fd off :
  p ≠ nullptr →
  let r := sys_mmap p size prot (view_flags p) fd off k in
  r.1 ≠ MAP_FAILED →
  Forall (λ u, vm_end u ≤ p ∨ p + page_align_up size ≤ vm_start u) (mm k) →
  r.1 = p
  ∧ ∃ ino, r.2 = set_mm (insert_vma {| vm_start := p; vm_end := p + page_align_up size;
                                       vm_prot := prot; vm_backing := Object ino off |}
                           (mm k))
                        (drop_bytes p (p + page_align_up size) (anon k)) k.
Proof.
  intros Hp r Hr Hfree. subst r. change (@sys_mmap linux) with Linux.mmap in *.
  unfold view_flags in *. apply Z.eqb_neq in Hp. rewrite Hp in *. cbn [negb] in *.
  unfold Linux.mmap in *.
  change (Z.testbit (Z.lor MAP_SHARED MAP_FIXED) 0) with true in *.
  change (Z.testbit (Z.lor MAP_SHARED MAP_FIXED) 1) with false in *.
  change (Z.testbit (Z.lor MAP_SHARED MAP_FIXED) 4) with true in *.
  change (Z.testbit (Z.lor MAP_SHARED MAP_FIXED) 5) with false in *.
  cbn [andb negb] in *. cbn zeta in *.
  destruct (assoc Z.eqb fd (fdtable k)) as [[ino wr|]|]; try done.
  destruct (Z.testbit prot 1 && negb wr); [done|].
  destruct (_ || _ || _ || _); [done|].
  destruct (_ || _ || _); [done|]. cbn [fst snd].
  split; [done|]. exists ino. by rewrite (unmap_range_free _ _ _ Hfree).
Qed.

(** X9: a view created at the address a successful probe returned, with the
    size that was probed, lands at that address and displaces nothing: every
    mapping the process had is still there and every byte it could read
    reads the same. *)
Theorem probe_then_fixed_view_displaces_nothing
    (w : World) this size p w1 offset writable executable q w2 :
  mm_ok (mm (kern w)) →
  FindBaseAddressForMapping size w = Returns p w1 →
  p ≠ MAP_FAILED →
  CreateViewPtr this offset size writable executable p w1 = Returns q w2 →
  q ≠ nullptr →
  q = p
  ∧ (∀ v, v ∈ mm (kern w) → v ∈ mm (kern w2))
  ∧ (∀ x b, peek x (kern w) = Some b → peek x (kern w2) = Some b)
  ∧ ∃ ino, vma_at p (kern w2)
           = Some {| vm_start := p; vm_end := p + page_align_up size;
                     vm_prot := view_prot writable executable;
                     vm_backing := Object ino (to_off64 offset) |}.
Proof.
  intros Hok Hprobe Hp Hcreate Hq.
  destruct (probe_world w size p w1 Hok Hprobe Hp)
    as (Hg & Hsize & Halign & Htop & Hk1 & _).
  pose proof (find_gap_ge (page_align_up size) (mm (kern w)) mmap_min_addr) as Hmin.
  pose proof (find_gap_free (page_align_up size) (mm (kern w)) mmap_min_addr Hok)
    as Hfree.
  rewrite <- Hg in Hmin, Hfree.
  assert (Hmm : mm (kern w1) = mm (kern w)) by (by rewrite Hk1).
  assert (Hino : inodes (kern w1) = inodes (kern w)) by (by rewrite Hk1).
  assert (Hpeek : ∀ x, peek x (kern w1) = peek x (kern w))
    by (intros x; rewrite Hk1; by apply probe_peek).
  rewrite <- Hmm in Hfree. clear Hg Hk1.
  assert (Hp0 : p ≠ nullptr) by (unfold mmap_min_addr, nullptr in *; lia).
  destruct (heap w1 !! this) as [a|] eqn:Ha;
    [|unfold CreateViewPtr, bind, load in Hcreate; by rewrite Ha in Hcreate].
  rewrite (CreateViewPtr_eq _ _ _ _ _ _ _ _ Ha) in Hcreate. cbn zeta in Hcreate.
  destruct (fixed_view_kernel (kern w1) p size (view_prot writable executable)
              (m_shmem_fd a) (to_off64 offset) Hp0) as (Hr & ino & Hk); [|done|].
  { intros Hfail. rewrite Hfail in Hcreate. by injection Hcreate as <- _. }
  set (r := sys_mmap _ _ _ _ _ _ _) in *.
  assert (Hres : q = r.1 ∧ kern w2 = r.2).
  { destruct (r.1 =? MAP_FAILED); by injection Hcreate as <- <-. }
  destruct Hres as (-> & Hk2). rewrite Hk in Hk2. clear Hcreate.
  pose proof (page_align_up_ge size Hsize) as Hlen.
  assert (Hat : ∀ x, x < p ∨ p + page_align_up size ≤ x →
                     vma_at x (kern w2) = vma_at x (kern w)).
  { intros x Hx. rewrite Hk2. unfold vma_at. cbn [mm set_mm].
    rewrite find_insert_vma by (cbn; lia). by rewrite Hmm. }
  assert (Hout : ∀ x v, vma_at x (kern w) = Some v → x < p ∨ p + page_align_up size ≤ x).
  { intros x v Hv. apply vma_at_inside in Hv as [Hin Hx]. rewrite <- Hmm in Hin.
    rewrite Forall_forall in Hfree. specialize (Hfree v Hin). lia. }
  split; [done|]. split_and!.
  - intros v Hv. rewrite Hk2. cbn [mm set_mm]. rewrite <- Hmm in Hv.
    clear -Hv. induction Hv as [v l|v u l Hv IH]; cbn.
    + destruct (_ <? _); [right|]; left.
    + destruct (_ <? _); right; [by right|done].
  - intros x b Hb.
    assert (∃ v, vma_at x (kern w) = Some v) as [v Hv]
      by (unfold peek in Hb; destruct (vma_at x (kern w)); [eauto|done]).
    rewrite <- Hb, <- (Hpeek x). apply peek_preserved.
    + rewrite (Hat x) by eauto. unfold vma_at. by rewrite Hmm.
    + rewrite Hk2. cbn [anon set_mm]. apply assoc_drop_bytes. eauto.
    + by rewrite Hk2.
  - exists ino. rewrite Hk2. unfold vma_at. cbn [mm set_mm].
    remember (mm (kern w1)) as l. clear -Hfree Hlen Hsize.
    induction Hfree as [|u l Hu _ IH]; cbn [List.find insert_vma vm_start vm_end].
    + destruct (Z.leb_spec p p), (Z.ltb_spec p (p + page_align_up size));
        cbn [andb]; try done; lia.
    + destruct (Z.ltb_spec p (vm_start u)); cbn [List.find vm_start vm_end].
      * destruct (Z.leb_spec p p), (Z.ltb_spec p (p + page_align_up size));
          cbn [andb]; try done; lia.
      * destruct (Z.leb_spec (vm_start u) p), (Z.ltb_spec p (vm_end u));
          cbn [andb]; try done; lia.
Qed.


(** X11: a view of size zero, at an offset that is no multiple of the page
    size, or at an offset of 2^63 or more is refused whatever the other
    arguments are: [CreateViewPtr] returns null, the kernel and every arena
    are as before, and the one call is all that happened. *)
Theorem CreateViewPtr_refused
    (w : World) this a offset size writable executable fixed_address :
  heap w !! this = Some a →
  0 ≤ offset < 2 ^ 64 →
  size = 0 ∨ offset `mod` PAGE_SIZE ≠ 0 ∨ 2 ^ 63 ≤ offset →
  CreateViewPtr this offset size writable executable fixed_address w
  = Returns nullptr
      (logged w (kern w)
         (Mmap fixed_address size (view_prot writable executable)
            (view_flags fixed_address) (m_shmem_fd a) (to_off64 offset) MAP_FAILED)).
Proof.
  intros Ha Hoff Hbad. rewrite (CreateViewPtr_eq _ _ _ _ _ _ _ _ Ha). cbn zeta.
  change (@sys_mmap linux) with Linux.mmap.
  assert (Linux.mmap fixed_address size (view_prot writable executable)
            (view_flags fixed_address) (m_shmem_fd a) (to_off64 offset) (kern w)
          = (MAP_FAILED, kern w)) as ->; [|done].
  unfold Linux.mmap. destruct (if Z.testbit _ 5 then _ else _); [|done].
  assert ((size <=? 0) || negb (page_aligned (to_off64 offset)) || (to_off64 offset <? 0)
          = true) as ->; [|done].
  unfold to_off64, page_aligned.
  destruct Hbad as [->|[Hmod|Hbig]].
  - done.
  - destruct (Z.ltb_spec offset (2 ^ 63)).
    + apply Z.eqb_neq in Hmod. rewrite Hmod. cbn [negb]. by rewrite orb_true_r.
    + destruct (Z.ltb_spec (offset - 2 ^ 64) 0); [apply orb_true_r|lia].
  - destruct (Z.ltb_spec offset (2 ^ 63)); [lia|].
    destruct (Z.ltb_spec (offset - 2 ^ 64) 0); [apply orb_true_r|lia].
Qed.

End LinuxMore.

(** * The front end *)

Module FrontendFacts.
Import Frontend.

Lemma hooked p signal :
  signal ∈ [SIGINT; SIGTERM] → handlers (HookSignals p) !! signal = Some Handler.
Proof.
  intros Hs. unfold HookSignals, std_signal. cbn [handlers].
  apply elem_of_cons in Hs as [->|Hs]; [by rewrite lookup_insert_ne, lookup_insert_eq|].
  apply list_elem_of_singleton in Hs as ->. by rewrite lookup_insert_eq.
Qed.

Lemma deliver_all_stopped p signals : state p ≠ Running → deliver_all p signals = p.
Proof.
  intros Hp. induction signals as [|s signals IH]; [done|].
  cbn. unfold deliver at 2. destruct (state p) eqn:E; done.
Qed.

Lemma requests_app p evs :
  length (List.filter (λ e, match e with RequestExit => true | _ => false end)
            (events p ++ evs))
  = (requests p
     + length (List.filter (λ e, match e with RequestExit => true | _ => false end) evs))%nat.
Proof. unfold requests. by rewrite List.filter_app, length_app. Qed.

(** X12: with the handler hooked, the first SIGINT or SIGTERM asks the
    emulation thread to exit and leaves the process running; the second one,
    of either kind, puts that signal back to its default and ends the
    process with status 1 without asking again, and signals after that find
    no process. *)
Theorem SignalHandler_second_signal_exits p s1 s2 rest :
  state p = Running →
  graceful_shutdown_attempted p = false →
  s1 ∈ [SIGINT; SIGTERM] →
  s2 ∈ [SIGINT; SIGTERM] →
  let first := deliver (HookSignals p) s1 in
  let last := deliver_all (HookSignals p) (s1 :: s2 :: rest) in
  state first = Running
  ∧ events first
    = events p
++ [Stderr shutdown_message; RequestExit]
  ∧ state last = Exited 1
  ∧ events last = events first ++ [QuickExit 1]
  ∧ handlers last !! s2 = Some SIG_DFL
  ∧ requests last = (requests p + 1)%nat.
Proof.
  intros Hrun Hflag Hs1 Hs2 first last.
  assert (Hfirst : first = {| graceful_shutdown_attempted := true;
                              handlers := handlers (HookSignals p);
                              events := events p ++ [Stderr shutdown_message; RequestExit];
                              state := Running |}).
  { subst first. unfold deliver. cbn [state HookSignals std_signal].
    rewrite Hrun. change (handlers _ !! s1) with (handlers (HookSignals p) !! s1).
    rewrite (hooked p s1 Hs1). unfold SignalHandler. cbn. by rewrite Hflag, Hrun. }
  assert (Hlast : last = quick_exit 1 (std_signal s2 SIG_DFL first)).
  { subst last. cbn [deliver_all foldl]. fold first.
    change (foldl deliver (deliver first s2) rest)
      with (deliver_all (deliver first s2) rest).
    assert (deliver first s2 = quick_exit 1 (std_signal s2 SIG_DFL first)) as ->.
    { rewrite Hfirst. unfold deliver. cbn [state handlers].
      by rewrite (hooked p s2 Hs2). }
    by apply deliver_all_stopped. }
  rewrite Hlast. split_and!; try by rewrite Hfirst.
  { cbn [handlers quick_exit std_signal]. apply lookup_insert_eq. }
  unfold requests. cbn [events quick_exit std_signal].
  rewrite Hfirst. cbn [events]. rewrite <- app_assoc. rewrite requests_app. reflexivity.
Qed.



(** X14: [main] shuts the host interface down exactly when it has called
    [Initialize], once, whether that succeeded or not, and not at all when
    the command line is refused; the window is shown, the signals are hooked
    and the event loop is run only after a successful [Initialize]; and the
    value returned is that of the event loop then, and [EXIT_FAILURE]
    otherwise. *)
Theorem main_shutdown_and_exit_code e :
  let calls := (main e).1 in
  count Initialize calls = (if parsed e then 1 else 0)%nat
  ∧ count MainWindow_ctor calls = count Initialize calls
  ∧ count Shutdown calls = count Initialize calls
  ∧ count app_exec calls = (if parsed e && initialized e then 1 else 0)%nat
  ∧ count initializeAndShow calls = count app_exec calls
  ∧ count HookSignals_call calls = count app_exec calls
  ∧ (main e).2 = (if parsed e && initialized e then exec_result e else EXIT_FAILURE)
  ∧ (parsed e = true →
     List.last calls CrashHandler_Install
     = if initialized e then Shutdown else QMessageBox_critical).
Proof.
  destruct e as [[] [] [] [] code]; vm_compute; split_and!; done.
Qed.

End FrontendFacts.

(** * The further facts at work *)

Module MoreRuns.
Import Linux LinuxInv Scenario LinuxFacts Runs LinuxMore.

Ltac run := vm_compute; reflexivity.

(** The first page mapped and released again. *)
Lemma CreateViewPtr_ReleaseViewPtr_restores_witness :
  heap arena8k !! arena = Some {| m_shmem_fd := 3; m_num_views := 0 |}
  ∧ CreateViewPtr arena 0 4096 true false nullptr arena8k = Returns 65536 (mapped true)
  ∧ ∃ w2, ReleaseViewPtr arena 65536 4096 (mapped true) = Returns true w2
          ∧ heap w2 !! arena = Some {| m_shmem_fd := 3; m_num_views := 0 |}.
Proof.
  assert (Ha : heap arena8k !! arena = Some {| m_shmem_fd := 3; m_num_views := 0 |})
    by run.
  assert (Hc : CreateViewPtr arena 0 4096 true false nullptr arena8k
               = Returns 65536 (mapped true))
    by (apply (Returns_of_value (CreateViewPtr arena 0 4096 true false nullptr)); run).
  split; [exact Ha|]. split; [exact Hc|].
  destruct (CreateViewPtr_ReleaseViewPtr_restores arena _ 0 4096 true false nullptr
              arena8k 65536 (mapped true) Ha ltac:(cbn; lia) Hc ltac:(done)
              ltac:(vm_compute; discriminate)) as (w2 & Hrel & Hheap & _).
  exists w2. split; [exact Hrel|]. rewrite Hheap. exact Ha.
Defined.

(** A view created and destroyed, its holder reading the flag as set. *)
Lemma CreateView_View_dtor_restores_witness :
  heap arena8k !! arena = Some {| m_shmem_fd := 3; m_num_views := 0 |}
  ∧ ∃ view w1 w2,
      CreateView true arena 0 4096 false false nullptr arena8k = Returns (Some view) w1
      ∧ View_dtor view w1 = Returns tt w2
      ∧ heap w2 !! arena = Some {| m_shmem_fd := 3; m_num_views := 0 |}
      ∧ trace w2 = trace arena8k
                   ++ [Mmap 0 4096 1 1 3 0 65536; Msync 65536 4096 0 0; Munmap 65536 4096 0].
Proof.
  assert (Ha : heap arena8k !! arena = Some {| m_shmem_fd := 3; m_num_views := 0 |})
    by run.
  split; [exact Ha|].
  eassert (Hc : CreateView true arena 0 4096 false false nullptr arena8k
                = Returns (Some _) _)
    by (apply (Returns_of_value (CreateView true arena 0 4096 false false nullptr)); run).
  destruct (CreateView_View_dtor_restores true arena _ 0 4096 false false nullptr
              arena8k _ _ Ha ltac:(cbn; lia) Hc
              ltac:(intros _; vm_compute; discriminate)
              ltac:(vm_compute; discriminate)) as (w2 & Hd & Hheap & Htrace).
  eexists _, _, w2. split; [exact Hc|]. split; [exact Hd|].
  split; [rewrite Hheap; exact Ha|]. rewrite Htrace. run.
Defined.

(** The arena created, and destroyed. *)
Lemma Create_MemoryArena_dtor_closes_witness :
  heap constructed !! arena = Some {| m_shmem_fd := -1; m_num_views := 0 |}
  ∧ Create arena 8192 true false constructed = Returns true arena8k
  ∧ ∃ w2, MemoryArena_dtor arena arena8k = Returns tt w2
          ∧ trace w2 = trace arena8k ++ [Close 3 0].
Proof.
  assert (Ha : heap constructed !! arena = Some {| m_shmem_fd := -1; m_num_views := 0 |})
    by run.
  assert (Hc : Create arena 8192 true false constructed = Returns true arena8k)
    by (apply (Returns_of_value (Create arena 8192 true false)); run).
  split; [exact Ha|]. split; [exact Hc|].
  destruct (Create_MemoryArena_dtor_closes arena _ 8192 true false constructed true
              arena8k Ha Hc) as (w2 & Hd & _ & Hpos & _).
  exists w2. split; [exact Hd|]. rewrite Hpos; [run|]. vm_compute. reflexivity.
Defined.

(** The arena created twice, with 8192 and then 4096 bytes, and destroyed:
    descriptor 4 is closed and descriptor 3 is still open. *)
Lemma Create_twice_closes_second_only_witness :
  heap constructed !! arena = Some {| m_shmem_fd := -1; m_num_views := 0 |}
  ∧ Create arena 8192 true false constructed = Returns true arena8k
  ∧ Create arena 4096 true false arena8k
    = Returns true (after (Create arena 4096 true false) arena8k)
  ∧ ∃ w3 evs, MemoryArena_dtor arena (after (Create arena 4096 true false) arena8k)
              = Returns tt w3
              ∧ trace w3 = trace constructed ++ evs
              ∧ (∀ fd r, Close fd r ∈ evs → fd = 4)
              ∧ fdtable (kern w3)
                = [(3, ShmFile 1 true); (0, OtherFile); (1, OtherFile); (2, OtherFile)].
Proof.
  assert (Ha : heap constructed !! arena = Some {| m_shmem_fd := -1; m_num_views := 0 |})
    by run.
  assert (Hc1 : Create arena 8192 true false constructed = Returns true arena8k)
    by (apply (Returns_of_value (Create arena 8192 true false)); run).
  assert (Hc2 : Create arena 4096 true false arena8k
                = Returns true (after (Create arena 4096 true false) arena8k))
    by (apply (Returns_of_value (Create arena 4096 true false)); run).
  split; [exact Ha|]. split; [exact Hc1|]. split; [exact Hc2|].
  destruct (Create_twice_closes_second_only arena _ 8192 true false 4096 true false
              constructed true arena8k true _ Ha Hc1 Hc2)
    as (w3 & evs & Hd & Htrace & Hclose).
  exists w3, evs. split; [exact Hd|]. split; [exact Htrace|]. split.
  - intros fd r Hin. rewrite (Hclose fd r Hin). run.
  - assert (Hw3 : w3 = after (MemoryArena_dtor arena)
                         (after (Create arena 4096 true false) arena8k))
      by (unfold after at 1; by rewrite Hd).
    rewrite Hw3. run.
Defined.

(** The calls of [session] on the arena of 8192 bytes. *)
Lemma run_ops_frame_witness :
  ∃ log w', run_ops arena session arena8k = Returns log w'
            ∧ m_shmem_fd <$> heap w' !! arena = Some 3
            ∧ heap w' !! 2%nat = None.
Proof.
  eassert (Hrun : run_ops arena session arena8k = Returns _ _)
    by (apply Returns_of_value; run).
  destruct (run_ops_frame arena session arena8k _ _ Hrun) as [Hother Hfd].
  eexists _, _. split; [exact Hrun|]. split.
  - rewrite Hfd. run.
  - rewrite (Hother 2%nat) by done. run.
Defined.

(** Two process ids that differ by 2^32 give one name. *)
Lemma file_mapping_name_inj_witness :
  file_mapping_name 8192 4242 = file_mapping_name 8192 (4242 + 2 ^ 32)
  ∧ to_unsigned 4242 = to_unsigned (4242 + 2 ^ 32).
Proof.
  assert (H : file_mapping_name 8192 4242 = file_mapping_name 8192 (4242 + 2 ^ 32))
    by run.
  split; [exact H|]. exact (proj2 (file_mapping_name_inj _ _ _ _ H)).
Defined.

Lemma occupied_ok : mm_ok (mm (kern occupied)).
Proof.
  split.
  - repeat constructor; vm_compute; reflexivity.
  - repeat constructor.
Qed.

(** A probe for 8192 bytes next to the page at [taken]. *)
Lemma FindBaseAddressForMapping_leaves_address_space_witness :
  mm_ok (mm (kern occupied))
  ∧ ∃ w', FindBaseAddressForMapping 8192 occupied = Returns 69632 w'
          ∧ 69632 ≠ MAP_FAILED
          ∧ mm (kern w') = mm (kern occupied)
          ∧ peek taken (kern w') = Some 171.
Proof.
  split; [exact occupied_ok|].
  assert (Hp : FindBaseAddressForMapping 8192 occupied
               = Returns 69632 (after (FindBaseAddressForMapping 8192) occupied))
    by (apply (Returns_of_value (FindBaseAddressForMapping 8192)); run).
  assert (Hne : 69632 ≠ MAP_FAILED) by (by vm_compute).
  destruct (FindBaseAddressForMapping_leaves_address_space occupied 8192 69632 _
              occupied_ok Hp Hne) as (_ & _ & _ & _ & _ & Hmm & _ & _ & Hpeek & _).
  eexists. split; [exact Hp|]. split; [exact Hne|]. split; [exact Hmm|].
  rewrite Hpeek. run.
Defined.

(** The probe, then a view of the arena at the address it gave: the page at
    [taken] keeps its byte. *)
Lemma probe_then_fixed_view_displaces_nothing_witness :
  mm_ok (mm (kern occupied))
  ∧ ∃ w1 w2, FindBaseAddressForMapping 8192 occupied = Returns 69632 w1
             ∧ CreateViewPtr arena 0 8192 true false 69632 w1 = Returns 69632 w2
             ∧ peek taken (kern w2) = Some 171
             ∧ peek 69632 (kern w2) = Some 0.
Proof.
  split; [exact occupied_ok|].
  assert (Hp : FindBaseAddressForMapping 8192 occupied
               = Returns 69632 (after (FindBaseAddressForMapping 8192) occupied))
    by (apply (Returns_of_value (FindBaseAddressForMapping 8192)); run).
  assert (Hc : CreateViewPtr arena 0 8192 true false 69632
                 (after (FindBaseAddressForMapping 8192) occupied)
               = Returns 69632
                   (after (CreateViewPtr arena 0 8192 true false 69632)
                      (after (FindBaseAddressForMapping 8192) occupied)))
    by (apply (Returns_of_value (CreateViewPtr arena 0 8192 true false 69632)); run).
  destruct (probe_then_fixed_view_displaces_nothing occupied arena 8192 69632 _ 0 true
              false 69632 _ occupied_ok Hp ltac:(by vm_compute) Hc ltac:(by vm_compute))
    as (_ & _ & Hpeek & _).
  eexists _, _. split; [exact Hp|]. split; [exact Hc|]. split.
  - apply Hpeek. run.
  - run.
Defined.


(** A view at offset 1 of the arena of 8192 bytes. *)
Lemma CreateViewPtr_refused_witness :
  heap arena8k !! arena = Some {| m_shmem_fd := 3; m_num_views := 0 |}
  ∧ 1 `mod` PAGE_SIZE ≠ 0
  ∧ value (CreateViewPtr arena 1 4096 true false nullptr) arena8k = Some nullptr
  ∧ kern (after (CreateViewPtr arena 1 4096 true false nullptr) arena8k) = kern arena8k.
Proof.
  assert (Ha : heap arena8k !! arena = Some {| m_shmem_fd := 3; m_num_views := 0 |})
    by run.
  assert (Hm : 1 `mod` PAGE_SIZE ≠ 0) by (vm_compute; discriminate).
  split; [exact Ha|]. split; [exact Hm|].
  pose proof (CreateViewPtr_refused arena8k arena _ 1 4096 true false nullptr Ha
                ltac:(lia) (or_intror (or_introl Hm))) as H.
  unfold value, after. rewrite H. split; reflexivity.
Defined.

(** Ctrl+C, then a termination request. *)
Lemma SignalHandler_second_signal_exits_witness :
  let p := {| Frontend.graceful_shutdown_attempted := false; Frontend.handlers := ∅;
              Frontend.events := []; Frontend.state := Frontend.Running |} in
  Frontend.state
    (Frontend.deliver_all (Frontend.HookSignals p) [Frontend.SIGINT; Frontend.SIGTERM])
  = Frontend.Exited 1
  ∧ Frontend.requests
      (Frontend.deliver_all (Frontend.HookSignals p) [Frontend.SIGINT; Frontend.SIGTERM])
    = 1%nat.
Proof.
  intros p.
  destruct (FrontendFacts.SignalHandler_second_signal_exits p Frontend.SIGINT
              Frontend.SIGTERM [] eq_refl eq_refl
              ltac:(by left) ltac:(right; by left)) as (_ & _ & Hstate & _ & _ & Hreq).
  split; [exact Hstate|exact Hreq].
Defined.

End MoreRuns.
